(** * backup-monitor telemetry collector: DNS beacon listener and HTTP API

    A shallow embedding of [chart/app/dns_server.py] and [chart/app/main.py].

    Python [str] values are modelled by [string] (characters are the code
    points below 256), Python [int] by [Z], [None] by [option] or by the
    [JNull] constructor of JSON values.  Code that can raise is written in
    a state-and-exception monad in which the effects performed before a
    [raise] are kept, as in Python.  The [print] calls of the listener only
    write to the log and are left out. *)

From Stdlib Require Import ZArith QArith List String Ascii Bool Lia.
From Stdlib Require Import Numbers.DecimalString.
Import ListNotations.

Open Scope string_scope.
Open Scope Z_scope.

(** ** Python string primitives *)

Module PyStr.

Definition code (c : ascii) : nat := nat_of_ascii c.

(** [str.lower] on one character: [A-Z] and the Latin-1 capitals
    (U+00C0..U+00DE except the multiplication sign U+00D7) move up by 32,
    every other code point below 256 is unchanged. *)
Definition lower_char (c : ascii) : ascii :=
  let n := code c in
  if ((65 <=? n) && (n <=? 90))%nat
     || ((192 <=? n) && (n <=? 222) && negb (n =? 215))%nat
  then ascii_of_nat (n + 32)
  else c.

Fixpoint lower (s : string) : string :=
  match s with
  | EmptyString => EmptyString
  | String c r => String (lower_char c) (lower r)
  end.

(** [s.endswith(suffix)] *)
Definition endswith (s suffix : string) : bool :=
  let n := String.length s in
  let k := String.length suffix in
  (k <=? n)%nat && String.eqb (substring (n - k) k s) suffix.

(** [s[:-k]]: for [k = 0] Python reads the stop index as [0]; otherwise
    the stop is [len(s) - k], clamped at the start of the string. *)
Definition slice_until_neg (s : string) (k : nat) : string :=
  match k with
  | O => EmptyString
  | _ => substring 0 (String.length s - k) s
  end.

(** [s.rstrip(c)] for a one-character set, on the reversed character list *)
Fixpoint lstrip_chars (c : ascii) (l : list ascii) : list ascii :=
  match l with
  | a :: r => if Ascii.eqb a c then lstrip_chars c r else l
  | [] => []
  end.

Definition rstrip (c : ascii) (s : string) : string :=
  string_of_list_ascii
    (rev (lstrip_chars c (rev (list_ascii_of_string s)))).

(** [s.split(c)] with a one-character separator: the result is never the
    empty list, [''.split('.')] is [['']]. *)
Fixpoint split (c : ascii) (s : string) : list string :=
  match s with
  | EmptyString => [EmptyString]
  | String a r =>
      if Ascii.eqb a c then EmptyString :: split c r
      else match split c r with
           | h :: t => String a h :: t
           | [] => [String a EmptyString]
           end
  end.

(** [s.replace(c, new)] with a one-character pattern: every occurrence *)
Fixpoint replace (c : ascii) (new : string) (s : string) : string :=
  match s with
  | EmptyString => EmptyString
  | String a r =>
      if Ascii.eqb a c then new ++ replace c new r
      else String a (replace c new r)
  end.

(** [sep.join(parts)] *)
Fixpoint join (sep : string) (parts : list string) : string :=
  match parts with
  | [] => EmptyString
  | [p] => p
  | p :: r => p ++ sep ++ join sep r
  end.

(** [c in s] *)
Fixpoint contains (c : ascii) (s : string) : bool :=
  match s with
  | EmptyString => false
  | String a r => Ascii.eqb a c || contains c r
  end.

(** truth value of a [str] *)
Definition truthy (s : string) : bool :=
  match s with EmptyString => false | _ => true end.

(** A string ends with [suffix] up to case when it has a tail that
    lowers to the lowered suffix. *)
Definition ends_with_ci (s suffix : string) : Prop :=
  exists p t, s = p ++ t /\ lower t = lower suffix.

End PyStr.

(** ** Exceptions and the effect monad *)

Inductive exn : Type :=
| ValueError
| AttributeError
| OperationalError      (* psycopg2: connect or statement failure *)
| InterfaceError        (* psycopg2: operation on a broken connection *)
| PostgresError.        (* asyncpg: statement failure *)

Inductive result (A : Type) : Type :=
| Ok (a : A)
| Raise (e : exn).
Arguments Ok {A} a.
Arguments Raise {A} e.

(** A computation over a store [S]: the store it leaves is the one reached
    when it returned or raised. *)
Definition M (S A : Type) : Type := S -> result A * S.

Definition ret {S A} (a : A) : M S A := fun s => (Ok a, s).
Definition raise {S A} (e : exn) : M S A := fun s => (Raise e, s).
Definition bind {S A B} (m : M S A) (k : A -> M S B) : M S B :=
  fun s => match m s with
           | (Ok a, s') => k a s'
           | (Raise e, s') => (Raise e, s')
           end.
(** [try: body  except Exception: handler] *)
Definition try_except {S A} (body : M S A) (handler : exn -> M S A) : M S A :=
  fun s => match body s with
           | (Ok a, s') => (Ok a, s')
           | (Raise e, s') => handler e s'
           end.
Definition exn_eqb (a b : exn) : bool :=
  match a, b with
  | ValueError, ValueError
  | AttributeError, AttributeError
  | OperationalError, OperationalError
  | InterfaceError, InterfaceError
  | PostgresError, PostgresError => true
  | _, _ => false
  end.
(** [try: body  except (C1, C2, ...): handler]: any other class goes on *)
Definition try_except_in {S A} (classes : list exn)
    (body : M S A) (handler : exn -> M S A) : M S A :=
  fun s => match body s with
           | (Ok a, s') => (Ok a, s')
           | (Raise e, s') =>
               if existsb (exn_eqb e) classes then handler e s'
               else (Raise e, s')
           end.
Definition lift {S A} (r : result A) : M S A := fun s => (r, s).
Definition gets {S A} (f : S -> A) : M S A := fun s => (Ok (f s), s).
Definition modify {S} (f : S -> S) : M S unit := fun s => (Ok tt, f s).

Declare Scope py_scope.
Delimit Scope py_scope with py.
Notation "x <- m ;; k" := (bind m (fun x => k))
  (at level 61, m at next level, right associativity) : py_scope.
Notation "m ;;; k" := (bind m (fun _ => k))
  (at level 61, right associativity) : py_scope.

(** ** The DNS beacon listener ([dns_server.py]) *)

Module Dns.
Import PyStr.
Local Open Scope py_scope.

Definition BEACON_SUFFIX : string := ".b.backup-monitor.gr.".

(** *** What dnslib hands to the resolver *)

Inductive RCODE : Type :=
| NOERROR | FORMERR | SERVFAIL | NXDOMAIN | NOTIMP | REFUSED.

(** The part of a [DNSRecord] the resolver touches: the header's id, its
    query/response bit and result code, the question name already
    rendered by [str(request.q.qname)], and the answer section. *)
Record DNSRecord : Type := {
  header_id : Z;
  header_qr : bool;
  header_rcode : RCODE;
  q_qname : string;
  rr : list string
}.

(** [request.reply()]: same id and question, response bit set, no answer *)
Definition reply_of (request : DNSRecord) : DNSRecord :=
  {| header_id := header_id request;
     header_qr := true;
     header_rcode := header_rcode request;
     q_qname := q_qname request;
     rr := [] |}.

Definition set_rcode (r : DNSRecord) (c : RCODE) : DNSRecord :=
  {| header_id := header_id r;
     header_qr := header_qr r;
     header_rcode := c;
     q_qname := q_qname r;
     rr := rr r |}.

(** A component of the peer address tuple *)
Inductive pyval : Type :=
| PyStr (s : string)
| PyInt (z : Z).

(** [handler.client_address]: [None] or a tuple *)
Record Handler : Type := { client_address : option (list pyval) }.

(** *** The store: resolver object, table, and what was done to the world *)

Record Connection : Type := { closed : bool; autocommit : bool }.

Record BeaconResolver : Type := {
  _conn : option Connection;
  _backoff : Z
}.

(** [BeaconResolver.__init__] *)
Definition __init__ : BeaconResolver := {| _conn := None; _backoff := 1 |}.

(** One row of [dns_beacon_log], as passed to [cur.execute] *)
Record BeaconRow : Type := {
  source_ip : option pyval;
  source_port : option pyval;
  query_name : string;
  fingerprint : option string;
  src_hash : option string;
  tool_version : option string
}.

Inductive Event : Type :=
| EvConnect (ok : bool)          (* psycopg2.connect was called *)
| EvSleep (secs : Z)             (* time.sleep returned after secs *)
| EvInsert (row : BeaconRow)     (* the INSERT was executed *)
| EvInsertFailed (row : BeaconRow)
| EvClose.                       (* conn.close() was called *)

Record Store : Type := {
  self : BeaconResolver;
  dns_beacon_log : list BeaconRow;
  trace : list Event              (* oldest first *)
}.

(** What the database does during one call of the resolver *)
Record Env : Type := {
  connect_ok : bool;
  autocommit_ok : bool;
  execute_ok : bool;
  close_ok : bool
}.

Definition log (e : Event) : M Store unit :=
  modify (fun s => {| self := self s;
                      dns_beacon_log := dns_beacon_log s;
                      trace := trace s ++ [e] |}).

Definition set_conn (c : option Connection) : M Store unit :=
  modify (fun s => {| self := {| _conn := c; _backoff := _backoff (self s) |};
                      dns_beacon_log := dns_beacon_log s;
                      trace := trace s |}).

Definition set_backoff (b : Z) : M Store unit :=
  modify (fun s => {| self := {| _conn := _conn (self s); _backoff := b |};
                      dns_beacon_log := dns_beacon_log s;
                      trace := trace s |}).

Definition append_row (r : BeaconRow) : M Store unit :=
  modify (fun s => {| self := self s;
                      dns_beacon_log := dns_beacon_log s ++ [r];
                      trace := trace s |}).

(** *** Library calls *)

Definition psycopg2_connect (env : Env) : M Store Connection :=
  log (EvConnect (connect_ok env));;;
  if connect_ok env
  then ret {| closed := false; autocommit := false |}
  else raise OperationalError.

(** [self._conn.autocommit = True] *)
Definition set_autocommit (env : Env) : M Store unit :=
  c <- gets (fun s => _conn (self s));;
  match c with
  | None => raise AttributeError
  | Some c =>
      if autocommit_ok env
      then set_conn (Some {| closed := closed c; autocommit := true |})
      else raise InterfaceError
  end.

(** [time.sleep(secs)] refuses a negative length *)
Definition time_sleep (secs : Z) : M Store unit :=
  if secs <? 0 then raise ValueError else log (EvSleep secs).

(** [with conn.cursor() as cur: cur.execute(INSERT ..., row)] *)
Definition cursor_execute (env : Env) (conn : Connection) (row : BeaconRow)
  : M Store unit :=
  if closed conn then raise InterfaceError
  else if execute_ok env
       then log (EvInsert row);;; append_row row
       else log (EvInsertFailed row);;; raise OperationalError.

(** [self._conn.close()] *)
Definition conn_close (env : Env) : M Store unit :=
  c <- gets (fun s => _conn (self s));;
  match c with
  | None => raise AttributeError
  | Some c =>
      log EvClose;;;
      if close_ok env
      then set_conn (Some {| closed := true; autocommit := autocommit c |})
      else raise InterfaceError
  end.

(** *** [BeaconResolver._get_conn] *)

Definition needs_connect (c : option Connection) : bool :=
  match c with
  | None => true
  | Some c => closed c
  end.

Definition _get_conn (env : Env) : M Store (option Connection) :=
  c <- gets (fun s => _conn (self s));;
  (if needs_connect c then
     try_except
       (conn <- psycopg2_connect env;;
        set_conn (Some conn);;;
        set_autocommit env;;;
        set_backoff 1)
       (fun _ =>
          set_conn None;;;
          b <- gets (fun s => _backoff (self s));;
          time_sleep b;;;
          b <- gets (fun s => _backoff (self s));;
          set_backoff (Z.min (b * 2) 60))
   else ret tt);;;
  gets (fun s => _conn (self s)).

(** *** [BeaconResolver._log_beacon] *)

Definition _log_beacon (env : Env) (row : BeaconRow) : M Store unit :=
  conn <- _get_conn env;;
  match conn with
  | None => ret tt
  | Some conn =>
      try_except
        (cursor_execute env conn row)
        (fun _ =>
           try_except (conn_close env) (fun _ => ret tt);;;
           set_conn None)
  end.

(** *** [BeaconResolver.resolve] *)

Definition is_beacon (qname : string) : bool :=
  endswith (lower qname) (lower BEACON_SUFFIX).

(** [qname[: -(len(BEACON_SUFFIX))].rstrip(".")] *)
Definition prefix (qname : string) : string :=
  rstrip "." (slice_until_neg qname (String.length BEACON_SUFFIX)).

Definition parts (qname : string) : list string :=
  split "." (prefix qname).

(** [parts[i] if len(parts) >= i + 1 else None] *)
Definition part_or_none (ps : list string) (i : nat) : option string :=
  if (i + 1 <=? List.length ps)%nat then Some (nth i ps EmptyString) else None.

(** The three decoded fields, in the order fingerprint, src_hash,
    tool_version *)
Definition decode (qname : string)
  : option string * option string * option string :=
  let ps := parts qname in
  (part_or_none ps 0,
   part_or_none ps 1,
   option_map (replace "-" ".") (part_or_none ps 2)).

(** [source[0] if source else None] and
    [source[1] if source and len(source) > 1 else None] *)
Definition peer_ip (source : option (list pyval)) : option pyval :=
  match source with
  | Some (a :: _) => Some a
  | _ => None
  end.

Definition peer_port (source : option (list pyval)) : option pyval :=
  match source with
  | Some (_ :: b :: _) => Some b
  | _ => None
  end.

Definition beacon_row (qname : string) (source : option (list pyval))
  : BeaconRow :=
  let '(fp, sh, tv) := decode qname in
  {| source_ip := peer_ip source;
     source_port := peer_port source;
     query_name := qname;
     fingerprint := fp;
     src_hash := sh;
     tool_version := tv |}.

Definition resolve (env : Env) (request : DNSRecord) (handler : Handler)
  : M Store DNSRecord :=
  let reply := set_rcode (reply_of request) NXDOMAIN in
  let qname := q_qname request in
  let source := client_address handler in
  (if is_beacon qname
   then _log_beacon env (beacon_row qname source)
   else ret tt);;;
  ret reply.

(** *** Runs of several calls *)

(** [_get_conn] called once per element of [envs], from store [s] *)
Fixpoint get_conn_run (envs : list Env) (s : Store)
  : list (result (option Connection)) * Store :=
  match envs with
  | [] => ([], s)
  | env :: rest =>
      let '(r, s1) := _get_conn env s in
      let '(rs, s2) := get_conn_run rest s1 in
      (r :: rs, s2)
  end.

(** The lengths of the sleeps recorded in a trace, oldest first *)
Fixpoint sleeps (t : list Event) : list Z :=
  match t with
  | [] => []
  | EvSleep d :: r => d :: sleeps r
  | _ :: r => sleeps r
  end.

Definition connects (t : list Event) : list bool :=
  flat_map (fun e => match e with EvConnect ok => [ok] | _ => [] end) t.

Definition fresh : Store :=
  {| self := __init__; dns_beacon_log := []; trace := [] |}.

Definition failing : Env :=
  {| connect_ok := false; autocommit_ok := true;
     execute_ok := true; close_ok := true |}.

Definition healthy : Env :=
  {| connect_ok := true; autocommit_ok := true;
     execute_ok := true; close_ok := true |}.

(** The connection is made, the INSERT raises, and so does [close] *)
Definition insert_fails : Env :=
  {| connect_ok := true; autocommit_ok := true;
     execute_ok := false; close_ok := false |}.

(** The [try] block of [_get_conn] goes through *)
Definition connect_succeeds (env : Env) : bool :=
  connect_ok env && autocommit_ok env.

(** The server or the network may end a connection at any time:
    psycopg2 then reports it as closed. *)
Definition drop_connection (s : Store) : Store :=
  {| self :=
       {| _conn := option_map
                     (fun c => {| closed := true; autocommit := autocommit c |})
                     (_conn (self s));
          _backoff := _backoff (self s) |};
     dns_beacon_log := dns_beacon_log s;
     trace := trace s |}.

(** The stores a running listener goes through: it starts from
    [BeaconResolver()] over any table, answers queries one after the
    other, and its connection may be lost in between. *)
Inductive reachable : Store -> Prop :=
| reach_start (table : list BeaconRow) :
    reachable {| self := __init__; dns_beacon_log := table; trace := [] |}
| reach_resolve (s : Store) env request handler :
    reachable s ->
    reachable (snd (resolve env request handler s))
| reach_drop (s : Store) :
    reachable s ->
    reachable (drop_connection s).

(** The delay stays within [1, 60], and is 1 while a connection is held *)
Definition backoff_ok (s : Store) : Prop :=
  1 <= _backoff (self s) <= 60
  /\ (_conn (self s) <> None -> _backoff (self s) = 1).

(** [_get_conn] has a connection to hand out: it holds an open one, or
    the connection attempt of this call goes through. *)
Definition conn_available (env : Env) (s : Store) : bool :=
  negb (needs_connect (_conn (self s))) || connect_succeeds env.

(** The store [_get_conn] leaves when it hands out a connection *)
Definition connected (env : Env) (s : Store) : Store :=
  if needs_connect (_conn (self s))
  then {| self := {| _conn := Some {| closed := false; autocommit := true |};
                     _backoff := 1 |};
          dns_beacon_log := dns_beacon_log s;
          trace := trace s ++ [EvConnect true] |}
  else s.

(** A request and a peer to run the listener on *)
Definition question (qname : string) : DNSRecord :=
  {| header_id := 4660; header_qr := false; header_rcode := NOERROR;
     q_qname := qname; rr := [] |}.

Definition suffix_only_request : DNSRecord := question BEACON_SUFFIX.

Definition udp_peer : Handler :=
  {| client_address := Some [PyStr "198.51.100.7"; PyInt 53124] |}.

(** The delay slept at the [k]-th consecutive failure, counting from 0 *)
Definition delay (k : nat) : Z := Z.min (2 ^ Z.of_nat k) 60.

End Dns.

(** ** The datetime library *)

(** [datetime.fromisoformat] and [datetime.isoformat] belong to the Python
    library, not to this program: the API is modelled over any
    implementation of them.  On a [str] argument [fromisoformat] either
    returns a datetime or raises [ValueError], written [None] here. *)
Class DatetimeLib : Type := {
  datetime : Type;
  fromisoformat : string -> option datetime;
  isoformat : datetime -> string
}.

(** ** The HTTP API ([main.py]) *)

Module Api.
Import PyStr.
Local Open Scope py_scope.

(** *** JSON values, as [request.json()] decodes them *)

#[warnings="-register-all"]
Inductive json : Type :=
| JNull
| JBool (b : bool)
| JInt (z : Z)
| JFloat (q : Q)
| JString (s : string)
| JArray (l : list json)
| JObject (kv : list (string * json)).

(** Python truth value of a decoded JSON value *)
Definition truthy (v : json) : bool :=
  match v with
  | JNull => false
  | JBool b => b
  | JInt z => negb (z =? 0)
  | JFloat q => negb (Qnum q =? 0)
  | JString s => PyStr.truthy s
  | JArray l => match l with [] => false | _ => true end
  | JObject kv => match kv with [] => false | _ => true end
  end.

Fixpoint assoc {A} (k : string) (kv : list (string * A)) : option A :=
  match kv with
  | [] => None
  | (k', v) :: r => if String.eqb k' k then Some v else assoc k r
  end.

(** [body.get(key, default)]: only a dict has [get] *)
Definition dict_get (body : json) (key : string) (default : json)
  : result json :=
  match body with
  | JObject kv =>
      Ok (match assoc key kv with Some v => v | None => default end)
  | _ => Raise AttributeError
  end.

(** [v.replace(old, new)]: only a str has [replace] *)
Definition str_replace (v : json) (old : ascii) (new : string)
  : result string :=
  match v with
  | JString s => Ok (replace old new s)
  | _ => Raise AttributeError
  end.

(** *** Requests *)

Record Request : Type := {
  headers : list (string * string);
  client : option (string * Z);       (* request.client: host, port *)
  body : json
}.

(** [request.headers.get(name)]: header names compare case-insensitively *)
Fixpoint headers_get (name : string) (hs : list (string * string))
  : option string :=
  match hs with
  | [] => None
  | (k, v) :: r =>
      if String.eqb (lower k) (lower name) then Some v
      else headers_get name r
  end.

(** [str.strip()]: the white space among the code points below 256 *)
Definition is_space (c : ascii) : bool :=
  let n := code c in
  (((9 <=? n) && (n <=? 13)) || ((28 <=? n) && (n <=? 32))
   || (n =? 133) || (n =? 160))%nat.

Fixpoint lstrip_space (l : list ascii) : list ascii :=
  match l with
  | a :: r => if is_space a then lstrip_space r else l
  | [] => []
  end.

Definition strip (s : string) : string :=
  string_of_list_ascii
    (rev (lstrip_space (rev (lstrip_space (list_ascii_of_string s))))).

(** [CF-Connecting-IP or X-Forwarded-For.split(",")[0].strip()
     or request.client.host] *)
Definition source_ip_of (request : Request) : result string :=
  let cf := headers_get "CF-Connecting-IP" (headers request) in
  let xff :=
    match headers_get "X-Forwarded-For" (headers request) with
    | Some v => v
    | None => EmptyString
    end in
  let first := strip (nth 0 (split "," xff) EmptyString) in
  let peer :=
    match client request with
    | Some (host, _) => Ok host
    | None => Raise AttributeError
    end in
  match cf with
  | Some v =>
      if PyStr.truthy v then Ok v
      else if PyStr.truthy first then Ok first else peer
  | None => if PyStr.truthy first then Ok first else peer
  end.

Section WithDatetime.
Context {DT : DatetimeLib}.

(** *** Tables, statements and the store *)

(** The twenty arguments of the INSERT into [telemetry_events] *)
Record TelemetryRow : Type := {
  t_source_ip : string;
  t_event : json;
  t_fingerprint : json;
  t_environment : json;
  t_env_source : json;
  t_public_ip : json;
  t_server_url : json;
  t_provider : json;
  t_node_count : json;
  t_cp_nodes : json;
  t_namespace_count : json;
  t_k10_version : json;
  t_enterprise_score : json;
  t_license_key_provided : json;
  t_license_key_valid : json;
  t_unlicensed_run_count : json;
  t_src_hash : json;
  t_tool_version : json;
  t_client_timestamp : option datetime;
  t_raw_payload : json            (* json.dumps(body) *)
}.

Inductive sqlarg : Type :=
| ArgStr (s : string)
| ArgDatetime (d : datetime)
| ArgInt (z : Z).

Record Query : Type := { sql : string; args : list sqlarg }.

Inductive dbval : Type :=
| DbNull
| DbBool (b : bool)
| DbInt (z : Z)
| DbText (s : string)
| DbTimestamp (d : datetime).

Definition Row : Type := list (string * dbval).

Record Store : Type := {
  telemetry_events : list TelemetryRow;
  fetched : list Query             (* statements given to pool.fetch *)
}.

(** What the pool does during one request: whether the INSERT of a row
    goes through, and what a SELECT brings back. *)
Record Env : Type := {
  execute_ok : TelemetryRow -> bool;
  fetch_result : Query -> result (list Row)
}.

Definition pool_execute (env : Env) (row : TelemetryRow) : M Store unit :=
  if execute_ok env row
  then modify (fun s => {| telemetry_events := telemetry_events s ++ [row];
                           fetched := fetched s |})
  else raise PostgresError.

Definition pool_fetch (env : Env) (q : Query) : M Store (list Row) :=
  modify (fun s => {| telemetry_events := telemetry_events s;
                      fetched := fetched s ++ [q] |});;;
  lift (fetch_result env q).

Definition datetime_fromisoformat (s : string) : result datetime :=
  match fromisoformat s with
  | Some d => Ok d
  | None => Raise ValueError
  end.

Inductive Response : Type :=
| Json (content : json)                          (* status 200 *)
| JSONResponse (content : json) (status_code : Z).

(** *** [ingest_telemetry] *)

(** Lines 88-94: the client timestamp *)
Definition client_timestamp (ts_raw : json) : M Store (option datetime) :=
  if truthy ts_raw then
    try_except_in [ValueError; AttributeError]
      (s <- lift (str_replace ts_raw "Z" "+00:00");;
       d <- lift (datetime_fromisoformat s);;
       ret (Some d))
      (fun _ => ret None)
  else ret None.

Definition ingest_telemetry (env : Env) (request : Request)
  : M Store Response :=
  let body := body request in
  let get k := lift (dict_get body k JNull) in
  source_ip <- lift (source_ip_of request);;
  ts_raw <- get "timestamp";;
  client_ts <- client_timestamp ts_raw;;
  event <- lift (dict_get body "event" (JString "unknown"));;
  fingerprint <- get "fingerprint";;
  environment <- get "environment";;
  env_source <- get "env_source";;
  public_ip <- get "public_ip";;
  server_url <- get "server_url";;
  provider <- get "provider";;
  node_count <- get "node_count";;
  cp_nodes <- get "cp_nodes";;
  namespace_count <- get "namespace_count";;
  k10_version <- get "k10_version";;
  enterprise_score <- get "enterprise_score";;
  license_key_provided <- get "license_key_provided";;
  license_key_valid <- get "license_key_valid";;
  unlicensed_run_count <- get "unlicensed_run_count";;
  src_hash <- get "src_hash";;
  tool_version <- get "tool_version";;
  pool_execute env
    {| t_source_ip := source_ip;
       t_event := event;
       t_fingerprint := fingerprint;
       t_environment := environment;
       t_env_source := env_source;
       t_public_ip := public_ip;
       t_server_url := server_url;
       t_provider := provider;
       t_node_count := node_count;
       t_cp_nodes := cp_nodes;
       t_namespace_count := namespace_count;
       t_k10_version := k10_version;
       t_enterprise_score := enterprise_score;
       t_license_key_provided := license_key_provided;
       t_license_key_valid := license_key_valid;
       t_unlicensed_run_count := unlicensed_run_count;
       t_src_hash := src_hash;
       t_tool_version := tool_version;
       t_client_timestamp := client_ts;
       t_raw_payload := body |};;;
  ret (Json (JObject [("status", JString "ok")])).

(** *** [query_telemetry] and [query_dns] *)

(** The three locals the filter construction updates *)
Record Filter : Type := {
  clauses : list string;
  params : list sqlarg;
  idx : nat
}.

Definition no_filter : Filter :=
  {| clauses := []; params := []; idx := 1 |}.

(** [str(idx)] *)
Definition str_of_nat (n : nat) : string :=
  NilEmpty.string_of_uint (Nat.to_uint n).

(** [if value: clauses.append(f"{column} = ${idx}");
     params.append(value); idx += 1] *)
Definition equality_filter (column : string) (value : option string)
    (f : Filter) : Filter :=
  match value with
  | Some v =>
      if PyStr.truthy v
      then {| clauses := clauses f ++ [column ++ " = $" ++ str_of_nat (idx f)];
              params := params f ++ [ArgStr v];
              idx := idx f + 1 |}
      else f
  | None => f
  end.

Definition invalid_since : Response :=
  JSONResponse (JObject [("error", JString "invalid 'since' format")]) 400.

(** The [if since:] block: the clause is appended first, then the value
    is parsed; [ValueError] leaves the handler with the 400 response
    ([inl]), otherwise the filter construction goes on ([inr]). *)
Definition since_filter (since : option string) (f : Filter)
  : M Store (Response + Filter) :=
  match since with
  | Some v =>
      if PyStr.truthy v then
        let clauses' : list string :=
          (clauses f
             ++ [("received_at >= $" ++ str_of_nat (idx f))%string])%list in
        try_except_in [ValueError]
          (d <- lift (datetime_fromisoformat (replace "Z" "+00:00" v));;
           ret (inr {| clauses := clauses';
                       params := params f ++ [ArgDatetime d];
                       idx := idx f + 1 |}))
          (fun _ => ret (inl invalid_since))
      else ret (inr f)
  | None => ret (inr f)
  end.

Definition where_clause (f : Filter) : string :=
  match clauses f with
  | [] => EmptyString
  | cs => "WHERE " ++ join " AND " cs
  end.

Definition clamp_limit (limit : Z) : Z := Z.min (Z.max 1 limit) 1000.

Definition DEFAULT_LIMIT : Z := 100.

(** [{k: (v.isoformat() if isinstance(v, datetime) else v) ...}] *)
Definition project_value (v : dbval) : json :=
  match v with
  | DbNull => JNull
  | DbBool b => JBool b
  | DbInt z => JInt z
  | DbText s => JString s
  | DbTimestamp d => JString (isoformat d)
  end.

Definition project (rows : list Row) : json :=
  JArray (map (fun r => JObject (map (fun kv => (fst kv, project_value (snd kv))) r))
              rows).

(** The statement both endpoints end with *)
Definition select_from (env : Env) (table : string) (f : Filter)
    (limit : Z) : M Store Response :=
  let where_ := where_clause f in
  let limit := clamp_limit limit in
  rows <- pool_fetch env
            {| sql := "SELECT * FROM " ++ table ++ " " ++ where_
                      ++ " ORDER BY received_at DESC LIMIT $"
                      ++ str_of_nat (idx f);
               args := params f ++ [ArgInt limit] |};;
  ret (Json (project rows)).

(** A [limit] that the request does not carry is [None] *)
Definition query_telemetry (env : Env)
    (fingerprint environment since : option string) (limit : option Z)
  : M Store Response :=
  let limit := match limit with Some l => l | None => DEFAULT_LIMIT end in
  let f := no_filter in
  let f := equality_filter "fingerprint" fingerprint f in
  let f := equality_filter "environment" environment f in
  r <- since_filter since f;;
  match r with
  | inl response => ret response
  | inr f => select_from env "telemetry_events" f limit
  end.

Definition query_dns (env : Env)
    (fingerprint since : option string) (limit : option Z)
  : M Store Response :=
  let limit := match limit with Some l => l | None => DEFAULT_LIMIT end in
  let f := no_filter in
  let f := equality_filter "fingerprint" fingerprint f in
  r <- since_filter since f;;
  match r with
  | inl response => ret response
  | inr f => select_from env "dns_beacon_log" f limit
  end.

Definition empty_store : Store :=
  {| telemetry_events := []; fetched := [] |}.

(** The client timestamp in the spec's words: a timestamp that is present
    is parsed as ISO-8601 with [Z] read as [+00:00]; an absent one (the
    [None] that [body.get] returns), one that does not parse (the empty
    string among them) and one of the wrong type give null. *)
Definition spec_client_timestamp (ts_raw : json) : option datetime :=
  match ts_raw with
  | JNull => None
  | JString EmptyString => None
  | JString s => fromisoformat (replace "Z" "+00:00" s)
  | _ => None
  end.

(** [since] was given, is not empty, and does not parse *)
Definition since_invalid (since : option string) : bool :=
  match since with
  | Some v =>
      PyStr.truthy v
      && match fromisoformat (replace "Z" "+00:00" v) with
         | Some _ => false
         | None => true
         end
  | None => false
  end.

(** The limit a statement was run with: its last argument *)
Definition limit_of (q : Query) : option Z :=
  match last (args q) (ArgInt 0) with
  | ArgInt z => Some z
  | _ => None
  end.

End WithDatetime.

End Api.

(** ** A datetime library to run the model with *)

(** Follows the grammar documented for [datetime.fromisoformat]:
    [YYYY-MM-DD[*HH[:MM[:SS[.fff[fff]]]][+HH:MM[:SS[.ffffff]]]]], where [*]
    is any one character. *)
Module Iso8601.
Import PyStr.

Record t : Type := {
  year : Z; month : Z; day : Z;
  hour : Z; minute : Z; second : Z; microsecond : Z;
  utcoffset : option Z               (* seconds east of UTC *)
}.

Definition digit (c : ascii) : option Z :=
  let n := code c in
  if ((48 <=? n) && (n <=? 57))%nat then Some (Z.of_nat n - 48) else None.

(** the number written by a string of digits *)
Fixpoint number_from (acc : Z) (s : string) : option Z :=
  match s with
  | EmptyString => Some acc
  | String c r =>
      match digit c with
      | Some d => number_from (acc * 10 + d) r
      | None => None
      end
  end.

Definition number (s : string) : option Z :=
  match s with
  | EmptyString => None
  | _ => number_from 0 s
  end.

Definition is_leap (y : Z) : bool :=
  (y mod 4 =? 0) && (negb (y mod 100 =? 0) || (y mod 400 =? 0)).

Definition days_in_month (y m : Z) : Z :=
  if m =? 2 then (if is_leap y then 29 else 28)
  else if (m =? 4) || (m =? 6) || (m =? 9) || (m =? 11) then 30
  else 31.

Definition sub (a n : nat) (s : string) : string := substring a n s.

Definition char_is (i : nat) (c : ascii) (s : string) : bool :=
  match get i s with
  | Some a => Ascii.eqb a c
  | None => false
  end.

(** [HH[:MM[:SS[.fff[fff]]]]] as hour, minute, second, microsecond *)
Definition parse_hms (s : string) : option (Z * Z * Z * Z) :=
  let n := String.length s in
  let field (i : nat) := number (sub i 2 s) in
  let colon (i : nat) := char_is i ":" s in
  match n with
  | 2%nat =>
      match field 0%nat with
      | Some h => Some (h, 0, 0, 0) | None => None end
  | 5%nat =>
      match field 0%nat, field 3%nat with
      | Some h, Some m => if colon 2%nat then Some (h, m, 0, 0) else None
      | _, _ => None
      end
  | 8%nat =>
      match field 0%nat, field 3%nat, field 6%nat with
      | Some h, Some m, Some sec =>
          if colon 2%nat && colon 5%nat then Some (h, m, sec, 0) else None
      | _, _, _ => None
      end
  | 12%nat =>
      match field 0%nat, field 3%nat, field 6%nat, number (sub 9 3 s) with
      | Some h, Some m, Some sec, Some ms =>
          if colon 2%nat && colon 5%nat && char_is 8 "." s
          then Some (h, m, sec, ms * 1000) else None
      | _, _, _, _ => None
      end
  | 15%nat =>
      match field 0%nat, field 3%nat, field 6%nat, number (sub 9 6 s) with
      | Some h, Some m, Some sec, Some us =>
          if colon 2%nat && colon 5%nat && char_is 8 "." s
          then Some (h, m, sec, us) else None
      | _, _, _, _ => None
      end
  | _ => None
  end.

(** position of the first [+] or [-], where the offset starts *)
Fixpoint sign_at (s : string) : option nat :=
  match s with
  | EmptyString => None
  | String c r =>
      if Ascii.eqb c "+" || Ascii.eqb c "-" then Some 0%nat
      else option_map S (sign_at r)
  end.

Definition parse_offset (s : string) : option Z :=
  match s with
  | String c r =>
      match parse_hms r with
      | Some (h, m, sec, _) =>
          if ((String.length r =? 5) || (String.length r =? 8)
              || (String.length r =? 15))%nat
             && (h <? 24) && (m <? 60) && (sec <? 60)
          then let v := h * 3600 + m * 60 + sec in
               Some (if Ascii.eqb c "-" then - v else v)
          else None
      | None => None
      end
  | EmptyString => None
  end.

Definition parse (s : string) : option t :=
  let n := String.length s in
  match number (sub 0 4 s), number (sub 5 2 s), number (sub 8 2 s) with
  | Some y, Some mo, Some d =>
      if (10 <=? n)%nat && char_is 4 "-" s && char_is 7 "-" s
         && (1 <=? y) && (1 <=? mo) && (mo <=? 12)
         && (1 <=? d) && (d <=? days_in_month y mo)
      then
        if (n =? 10)%nat
        then Some {| year := y; month := mo; day := d;
                     hour := 0; minute := 0; second := 0; microsecond := 0;
                     utcoffset := None |}
        else
          let rest := sub 11 (n - 11) s in
          let '(clock, zone) :=
            match sign_at rest with
            | Some i => (sub 0 i rest,
                         Some (sub i (String.length rest - i) rest))
            | None => (rest, None)
            end in
          match parse_hms clock with
          | Some (h, mi, sec, us) =>
              if (h <? 24) && (mi <? 60) && (sec <? 60)
              then
                match zone with
                | None =>
                    Some {| year := y; month := mo; day := d;
                            hour := h; minute := mi; second := sec;
                            microsecond := us; utcoffset := None |}
                | Some z =>
                    match parse_offset z with
                    | Some off =>
                        Some {| year := y; month := mo; day := d;
                                hour := h; minute := mi; second := sec;
                                microsecond := us; utcoffset := Some off |}
                    | None => None
                    end
                end
              else None
          | None => None
          end
      else None
  | _, _, _ => None
  end.

(** a number in decimal, at least [width] digits wide *)
Fixpoint zeros (n : nat) : string :=
  match n with O => EmptyString | S k => String "0" (zeros k) end.

Definition padded (width : nat) (z : Z) : string :=
  let d := NilEmpty.string_of_uint (N.to_uint (Z.to_N z)) in
  zeros (width - String.length d) ++ d.

Definition format (d : t) : string :=
  padded 4 (year d) ++ "-" ++ padded 2 (month d) ++ "-" ++ padded 2 (day d)
  ++ "T" ++ padded 2 (hour d) ++ ":" ++ padded 2 (minute d)
  ++ ":" ++ padded 2 (second d)
  ++ (if microsecond d =? 0 then EmptyString
      else "." ++ padded 6 (microsecond d))
  ++ match utcoffset d with
     | None => EmptyString
     | Some off =>
         let a := Z.abs off in
         (if off <? 0 then "-" else "+")
         ++ padded 2 (a / 3600) ++ ":" ++ padded 2 ((a mod 3600) / 60)
         ++ (if a mod 60 =? 0 then EmptyString
             else ":" ++ padded 2 (a mod 60))
     end.

#[export] Instance lib : DatetimeLib :=
  {| datetime := t; fromisoformat := parse; isoformat := format |}.

End Iso8601.

(** ** Sample inputs for the API, over the library above *)

Module Samples.
Import Api.

(** A pool that takes every row and finds no row *)
Definition pool_up : @Env Iso8601.lib :=
  {| execute_ok := fun _ => true; fetch_result := fun _ => Ok [] |}.

Definition post (body : json) : Request :=
  {| headers := [("x-forwarded-for", " 203.0.113.9 , 10.0.0.1")];
     client := Some ("10.0.0.1", 41000);
     body := body |}.

Definition midnight_utc : Iso8601.t :=
  {| Iso8601.year := 2024; Iso8601.month := 1; Iso8601.day := 1;
     Iso8601.hour := 0; Iso8601.minute := 0; Iso8601.second := 0;
     Iso8601.microsecond := 0; Iso8601.utcoffset := Some 0 |}.

End Samples.

(** ** The listener over several queries *)

Module DnsRuns.
Import PyStr Dns.

(** One datagram: what the database does while it is handled, the query
    and the peer *)
Definition Call : Type := (Env * DNSRecord * Handler)%type.

(** [resolve] called once per element of [calls], from store [s] *)
Fixpoint resolve_run (calls : list Call) (s : Store)
  : list (result DNSRecord) * Store :=
  match calls with
  | [] => ([], s)
  | (env, request, handler) :: rest =>
      let '(r, s1) := resolve env request handler s in
      let '(rs, s2) := resolve_run rest s1 in
      (r :: rs, s2)
  end.

(** The rows of the beacon queries among [calls], in order of arrival *)
Definition beacon_rows (calls : list Call) : list BeaconRow :=
  flat_map (fun c : Call =>
              let '(_, request, handler) := c in
              if is_beacon (q_qname request)
              then [beacon_row (q_qname request) (client_address handler)]
              else [])
           calls.

Definition any_beacon (calls : list Call) : bool :=
  existsb (fun c : Call => let '(_, request, _) := c in
                           is_beacon (q_qname request)) calls.

(** The database accepts connections and inserts during the call *)
Definition storage_up (c : Call) : Prop :=
  let '(env, _, _) := c in
  connect_succeeds env = true /\ execute_ok env = true.

(** [n] dots *)
Fixpoint dots (n : nat) : string :=
  match n with
  | O => EmptyString
  | S k => String "." (dots k)
  end.

Definition three_calls : list Call :=
  [(healthy, question "abc123.deadbeef.1-2-3.b.backup-monitor.gr.", udp_peer);
   (healthy, question "www.example.org.", udp_peer);
   (healthy, question "f00d.B.Backup-Monitor.GR.", udp_peer)].

End DnsRuns.

(** ** The rest of the API *)

Module ApiMore.
Import PyStr Api.

Section WithDatetime.
Context {DT : DatetimeLib}.

(** [await pool.fetchval("SELECT 1")], given what the probe brings *)
Definition pool_fetchval (probe : result dbval) : M Store dbval :=
  lift probe.

(** [health]; [str_of e] stands for [str(e)] *)
Definition health (probe : result dbval) (str_of : exn -> string)
  : M Store Response :=
  try_except
    (bind (pool_fetchval probe)
          (fun _ => ret (Json (JObject [("status", JString "healthy")]))))
    (fun e =>
       ret (JSONResponse
              (JObject [("status", JString "unhealthy");
                        ("error", JString (str_of e))]) 503)).

(** A query parameter was given and is not empty *)
Definition present (v : option string) : bool :=
  match v with
  | Some s => PyStr.truthy s
  | None => false
  end.

(** The argument a string parameter contributes to a statement *)
Definition str_args (v : option string) : list sqlarg :=
  match v with
  | Some s => if PyStr.truthy s then [ArgStr s] else []
  | None => []
  end.

(** The argument a [since] that parses contributes *)
Definition since_args (since : option string) : list sqlarg :=
  match since with
  | Some s =>
      if PyStr.truthy s
      then match fromisoformat (replace "Z" "+00:00" s) with
           | Some d => [ArgDatetime d]
           | None => []
           end
      else []
  | None => []
  end.

(** How often a character occurs in a string *)
Fixpoint count_char (c : ascii) (s : string) : nat :=
  match s with
  | EmptyString => O
  | String a r => ((if Ascii.eqb a c then 1 else 0) + count_char c r)%nat
  end.

(** The eight texts of the telemetry query, by the filters present *)
Definition telemetry_sql (fingerprint environment since : bool) : string :=
  match fingerprint, environment, since with
  | false, false, false =>
      "SELECT * FROM telemetry_events  ORDER BY received_at DESC LIMIT $1"
  | true, false, false =>
      "SELECT * FROM telemetry_events WHERE fingerprint = $1 ORDER BY received_at DESC LIMIT $2"
  | false, true, false =>
      "SELECT * FROM telemetry_events WHERE environment = $1 ORDER BY received_at DESC LIMIT $2"
  | false, false, true =>
      "SELECT * FROM telemetry_events WHERE received_at >= $1 ORDER BY received_at DESC LIMIT $2"
  | true, true, false =>
      "SELECT * FROM telemetry_events WHERE fingerprint = $1 AND environment = $2 ORDER BY received_at DESC LIMIT $3"
  | true, false, true =>
      "SELECT * FROM telemetry_events WHERE fingerprint = $1 AND received_at >= $2 ORDER BY received_at DESC LIMIT $3"
  | false, true, true =>
      "SELECT * FROM telemetry_events WHERE environment = $1 AND received_at >= $2 ORDER BY received_at DESC LIMIT $3"
  | true, true, true =>
      "SELECT * FROM telemetry_events WHERE fingerprint = $1 AND environment = $2 AND received_at >= $3 ORDER BY received_at DESC LIMIT $4"
  end.

(** The four texts of the DNS query *)
Definition dns_sql (fingerprint since : bool) : string :=
  match fingerprint, since with
  | false, false =>
      "SELECT * FROM dns_beacon_log  ORDER BY received_at DESC LIMIT $1"
  | true, false =>
      "SELECT * FROM dns_beacon_log WHERE fingerprint = $1 ORDER BY received_at DESC LIMIT $2"
  | false, true =>
      "SELECT * FROM dns_beacon_log WHERE received_at >= $1 ORDER BY received_at DESC LIMIT $2"
  | true, true =>
      "SELECT * FROM dns_beacon_log WHERE fingerprint = $1 AND received_at >= $2 ORDER BY received_at DESC LIMIT $3"
  end.

Definition limit_or_default (limit : option Z) : Z :=
  match limit with
  | Some l => l
  | None => DEFAULT_LIMIT
  end.

End WithDatetime.

End ApiMore.

(** ** More sample inputs *)

Module MoreSamples.
Import Api.

(** A pool whose every statement fails *)
Definition pool_down : @Env Iso8601.lib :=
  {| execute_ok := fun _ => false;
     fetch_result := fun _ => Raise PostgresError |}.

(** A fingerprint that tries to be SQL *)
Definition hostile : string := "x' OR '1'='1".

End MoreSamples.

(** * Properties *)

(** ** Strings *)

Section StringFacts.
Import PyStr.

Lemma str_length_app (a b : string) :
  String.length (a ++ b) = (String.length a + String.length b)%nat.
Proof. induction a as [|c a IH]; simpl; [reflexivity | now rewrite IH]. Qed.

Lemma app_assoc_str (a b c : string) : (a ++ b) ++ c = a ++ (b ++ c).
Proof. induction a as [|x a IH]; simpl; [reflexivity | now rewrite IH]. Qed.

Lemma lower_length (s : string) : String.length (lower s) = String.length s.
Proof. induction s as [|c s IH]; simpl; [reflexivity | now rewrite IH]. Qed.

Lemma lower_app (a b : string) : lower (a ++ b) = lower a ++ lower b.
Proof. induction a as [|c a IH]; simpl; [reflexivity | now rewrite IH]. Qed.

(** Cutting a string at position [n] *)
Lemma substring_all (s : string) : substring 0 (String.length s) s = s.
Proof. induction s as [|c s IH]; simpl; [reflexivity | now rewrite IH]. Qed.

Lemma substring_split (s : string) (n : nat) :
  (n <= String.length s)%nat ->
  s = substring 0 n s ++ substring n (String.length s - n) s.
Proof.
  revert n; induction s as [|c s IH]; intros [|n] Hn; simpl in *;
    try reflexivity; try lia.
  - now rewrite substring_all.
  - rewrite <- (IH n) by lia. reflexivity.
Qed.

Lemma substring_app_l (p t : string) :
  substring 0 (String.length p) (p ++ t) = p.
Proof.
  induction p as [|c p IH]; simpl.
  - destruct t; reflexivity.
  - now rewrite IH.
Qed.

Lemma substring_app_r (p t : string) :
  substring (String.length p) (String.length t) (p ++ t) = t.
Proof.
  induction p as [|c p IH]; simpl; [apply substring_all | exact IH].
Qed.

Lemma substring_length (s : string) (a n : nat) :
  (a + n <= String.length s)%nat ->
  String.length (substring a n s) = n.
Proof.
  revert a n; induction s as [|c s IH]; intros [|a] [|n] H; simpl in *;
    try reflexivity; try lia.
  - rewrite (IH 0%nat n); [reflexivity | simpl; lia].
  - apply (IH a 0%nat); lia.
  - apply IH; lia.
Qed.

(** [endswith] is the suffix relation *)
Lemma endswith_iff (s suffix : string) :
  endswith s suffix = true <-> exists p, s = p ++ suffix.
Proof.
  unfold endswith; split.
  - intros H. apply andb_true_iff in H as [Hk He].
    apply Nat.leb_le in Hk. apply String.eqb_eq in He.
    exists (substring 0 (String.length s - String.length suffix) s).
    pose proof (substring_split s (String.length s - String.length suffix)
                  ltac:(lia)) as Hs.
    replace (String.length s - (String.length s - String.length suffix))%nat
      with (String.length suffix) in Hs by lia.
    now rewrite He in Hs.
  - intros [p ->]. rewrite str_length_app.
    apply andb_true_iff; split; [apply Nat.leb_le; lia|].
    replace (String.length p + String.length suffix - String.length suffix)%nat
      with (String.length p) by lia.
    rewrite substring_app_r. apply String.eqb_refl.
Qed.

Lemma endswith_lower_iff (s suffix : string) :
  endswith (lower s) (lower suffix) = true <-> ends_with_ci s suffix.
Proof.
  rewrite endswith_iff; split.
  - intros [p Hp].
    assert (Hlen : (String.length suffix <= String.length s)%nat).
    { rewrite <- (lower_length s), Hp, str_length_app, lower_length. lia. }
    set (n := (String.length s - String.length suffix)%nat).
    exists (substring 0 n s), (substring n (String.length s - n) s).
    split; [apply substring_split; lia|].
    pose proof (substring_split s n ltac:(lia)) as Hs.
    rewrite Hs, lower_app in Hp.
    assert (Hl : String.length (lower (substring 0 n s)) = String.length p).
    { rewrite lower_length, substring_length by (simpl; lia).
      apply (f_equal String.length) in Hp.
      rewrite !str_length_app, !lower_length in Hp.
      rewrite (substring_length s 0 n) in Hp by (simpl; lia).
      rewrite (substring_length s n) in Hp by lia.
      lia. }
    clear Hs. revert Hl Hp.
    generalize (lower (substring 0 n s)) as x.
    generalize (lower (substring n (String.length s - n) s)) as y.
    generalize (lower suffix) as z. clear.
    intros z y x; revert p; induction x as [|c x IH]; intros [|d p] Hl Hp;
      simpl in *; try discriminate; [assumption|].
    injection Hp as _ Hp. apply (IH p); [lia | assumption].
  - intros (p & t & -> & Ht). exists (lower p).
    now rewrite lower_app, Ht.
Qed.

(** [split] never returns the empty list *)
Lemma split_not_nil (c : ascii) (s : string) : split c s <> [].
Proof.
  induction s as [|a s IH]; simpl; [discriminate|].
  destruct (Ascii.eqb a c); [discriminate|].
  destruct (split c s); [contradiction | discriminate].
Qed.

Lemma split_length (c : ascii) (s : string) :
  (1 <= List.length (split c s))%nat.
Proof.
  pose proof (split_not_nil c s). destruct (split c s); simpl; [congruence|lia].
Qed.

Lemma split_no_sep (c : ascii) (s : string) :
  contains c s = false -> split c s = [s].
Proof.
  induction s as [|a s IH]; simpl; [reflexivity|].
  intros H. apply orb_false_iff in H as [Ha Hs].
  rewrite Ha, (IH Hs). reflexivity.
Qed.

Lemma split_app_sep (c : ascii) (a b : string) :
  contains c a = false ->
  split c (a ++ String c b) = a :: split c b.
Proof.
  induction a as [|x a IH]; simpl.
  - intros _. now rewrite Ascii.eqb_refl.
  - intros H. apply orb_false_iff in H as [Hx Ha].
    rewrite Hx, (IH Ha). reflexivity.
Qed.

(** Splitting what [join] glued gives the pieces back *)
Lemma split_join (c : ascii) (ls : list string) :
  ls <> [] ->
  Forall (fun l => contains c l = false) ls ->
  split c (join (String c "") ls) = ls.
Proof.
  induction ls as [|l ls IH]; [congruence|].
  intros _ H. inversion H as [|? ? Hl Hls]; subst.
  destruct ls as [|l' ls].
  - simpl. now apply split_no_sep.
  - change (join (String c "") (l :: l' :: ls))
      with (l ++ String c (join (String c "") (l' :: ls))).
    rewrite split_app_sep by assumption.
    now rewrite IH.
Qed.

Lemma list_ascii_app (a b : string) :
  list_ascii_of_string (a ++ b)
  = (list_ascii_of_string a ++ list_ascii_of_string b)%list.
Proof. induction a as [|c a IH]; simpl; [reflexivity | now rewrite IH]. Qed.

(** [rstrip] leaves a string that does not end with the character *)
Lemma rstrip_keeps (c a : ascii) (s : string) :
  Ascii.eqb a c = false ->
  rstrip c (s ++ String a "") = s ++ String a "".
Proof.
  intros H. unfold rstrip.
  rewrite list_ascii_app, rev_app_distr. simpl. rewrite H.
  simpl. rewrite rev_involutive.
  change [a] with (list_ascii_of_string (String a "")).
  rewrite <- list_ascii_app. apply string_of_list_ascii_of_string.
Qed.

(** a non-empty string is its front followed by its last character *)
Lemma last_char (s : string) :
  s <> "" -> exists p a, s = p ++ String a "".
Proof.
  induction s as [|c s IH]; [congruence|]. intros _.
  destruct s as [|d s].
  - exists "", c. reflexivity.
  - destruct IH as (p & a & E); [discriminate|].
    exists (String c p), a. simpl. now rewrite <- E.
Qed.

Lemma contains_app (c : ascii) (a b : string) :
  contains c (a ++ b) = contains c a || contains c b.
Proof.
  induction a as [|x a IH]; simpl; [reflexivity|].
  now rewrite IH, orb_assoc.
Qed.

Lemma replace_no_occurrence (c : ascii) (new s : string) :
  contains c s = false -> replace c new s = s.
Proof.
  induction s as [|a s IH]; simpl; [reflexivity|].
  intros H. apply orb_false_iff in H as [Ha Hs].
  now rewrite Ha, (IH Hs).
Qed.

Lemma replace_app (c : ascii) (new a b : string) :
  replace c new (a ++ b) = replace c new a ++ replace c new b.
Proof.
  induction a as [|x a IH]; simpl; [reflexivity|].
  destruct (Ascii.eqb x c); rewrite IH; [|reflexivity].
  now rewrite app_assoc_str.
Qed.

End StringFacts.

(** ** The DNS listener *)

Section DnsFacts.
Import PyStr Dns.

Ltac run :=
  unfold _log_beacon, _get_conn, psycopg2_connect, set_autocommit,
    time_sleep, cursor_execute, conn_close, set_conn, set_backoff,
    append_row, log, try_except, bind, gets, modify, ret, raise;
  simpl.

(** *** [_get_conn], case by case *)

Lemma get_conn_live (env : Env) (s : Store) :
  needs_connect (_conn (self s)) = false ->
  _get_conn env s = (Ok (_conn (self s)), s).
Proof.
  destruct s as [[c b] tb tr]; simpl; intros H. run. now rewrite H.
Qed.

Lemma get_conn_success (env : Env) (s : Store) :
  needs_connect (_conn (self s)) = true ->
  connect_succeeds env = true ->
  _get_conn env s
  = (Ok (Some {| closed := false; autocommit := true |}),
     {| self := {| _conn := Some {| closed := false; autocommit := true |};
                   _backoff := 1 |};
        dns_beacon_log := dns_beacon_log s;
        trace := trace s ++ [EvConnect true] |}).
Proof.
  destruct s as [[c b] tb tr], env as [co ao eo clo]; simpl.
  unfold connect_succeeds; simpl. intros H E.
  apply andb_true_iff in E as [-> ->]. run. now rewrite H.
Qed.

Lemma get_conn_failure (env : Env) (s : Store) :
  needs_connect (_conn (self s)) = true ->
  connect_succeeds env = false ->
  0 <= _backoff (self s) ->
  _get_conn env s
  = (Ok None,
     {| self := {| _conn := None;
                   _backoff := Z.min (_backoff (self s) * 2) 60 |};
        dns_beacon_log := dns_beacon_log s;
        trace := trace s ++ [EvConnect (connect_ok env);
                             EvSleep (_backoff (self s))] |}).
Proof.
  destruct s as [[c b] tb tr], env as [co ao eo clo]; simpl.
  unfold connect_succeeds; simpl. intros H E Hb.
  assert (Hs : (b <? 0) = false) by (apply Z.ltb_ge; lia).
  run. rewrite H.
  destruct co, ao; try discriminate; simpl; rewrite Hs; simpl;
    rewrite <- app_assoc; reflexivity.
Qed.

(** *** The invariant of the resolver object *)

(** The connection [_get_conn] hands out is never a closed one *)
Lemma get_conn_open (env : Env) (s : Store) (c : Connection) :
  backoff_ok s ->
  fst (_get_conn env s) = Ok (Some c) -> closed c = false.
Proof.
  intros [Hb _].
  destruct (needs_connect (_conn (self s))) eqn:N.
  - destruct (connect_succeeds env) eqn:C.
    + rewrite get_conn_success by assumption. simpl. now intros [= <-].
    + rewrite get_conn_failure by (assumption || lia). discriminate.
  - rewrite get_conn_live by assumption. simpl. intros [= E].
    rewrite E in N. exact N.
Qed.

(** *** [_log_beacon], case by case *)

Lemma log_beacon_unavailable (env : Env) (row : BeaconRow) (s : Store) :
  backoff_ok s ->
  conn_available env s = false ->
  _log_beacon env row s
  = (Ok tt,
     {| self := {| _conn := None;
                   _backoff := Z.min (_backoff (self s) * 2) 60 |};
        dns_beacon_log := dns_beacon_log s;
        trace := trace s ++ [EvConnect (connect_ok env);
                             EvSleep (_backoff (self s))] |}).
Proof.
  intros [Hb _] A. unfold conn_available in A.
  apply orb_false_iff in A as [N C]. apply negb_false_iff in N.
  unfold _log_beacon, bind.
  rewrite get_conn_failure by (assumption || lia). reflexivity.
Qed.

Lemma log_beacon_inserted (env : Env) (row : BeaconRow) (s : Store) :
  conn_available env s = true ->
  execute_ok env = true ->
  _log_beacon env row s
  = (Ok tt,
     {| self := self (connected env s);
        dns_beacon_log := dns_beacon_log s ++ [row];
        trace := trace (connected env s) ++ [EvInsert row] |}).
Proof.
  intros A E. unfold conn_available in A. unfold connected, _log_beacon, bind.
  destruct (needs_connect (_conn (self s))) eqn:N; simpl in A.
  - rewrite get_conn_success by assumption. run. now rewrite E.
  - rewrite get_conn_live by assumption.
    destruct s as [[[c|] b] tb tr]; simpl in *; [|discriminate].
    run. now rewrite N, E.
Qed.

Lemma log_beacon_insert_failed (env : Env) (row : BeaconRow) (s : Store) :
  conn_available env s = true ->
  execute_ok env = false ->
  _log_beacon env row s
  = (Ok tt,
     {| self := {| _conn := None;
                   _backoff := _backoff (self (connected env s)) |};
        dns_beacon_log := dns_beacon_log s;
        trace := trace (connected env s) ++ [EvInsertFailed row; EvClose] |}).
Proof.
  intros A E. unfold conn_available in A. unfold connected, _log_beacon, bind.
  destruct (needs_connect (_conn (self s))) eqn:N; simpl in A.
  - rewrite get_conn_success by assumption. run. rewrite E. simpl.
    destruct (close_ok env); simpl; now rewrite <- !app_assoc.
  - rewrite get_conn_live by assumption.
    destruct s as [[[c|] b] tb tr]; simpl in *; [|discriminate].
    run. rewrite N, E. simpl.
    destruct (close_ok env); simpl; now rewrite <- !app_assoc.
Qed.

(** [_log_beacon] returns normally and keeps the invariant *)
Lemma log_beacon_returns (env : Env) (row : BeaconRow) (s : Store) :
  backoff_ok s ->
  fst (_log_beacon env row s) = Ok tt
  /\ backoff_ok (snd (_log_beacon env row s)).
Proof.
  intros H. pose proof H as [Hb Hc].
  destruct (conn_available env s) eqn:A.
  - assert (Hk : backoff_ok (connected env s)).
    { unfold connected. destruct (needs_connect _); [|assumption].
      split; simpl; [lia | reflexivity]. }
    destruct Hk as [Hkb Hkc].
    destruct (execute_ok env) eqn:E.
    + rewrite log_beacon_inserted by assumption. now split; [|split].
    + rewrite log_beacon_insert_failed by assumption.
      split; [reflexivity|]. split; simpl; [assumption | congruence].
  - rewrite log_beacon_unavailable by assumption.
    split; [reflexivity|]. split; simpl; [lia | congruence].
Qed.

(** Every call of [_log_beacon] shows in the trace *)
Lemma log_beacon_leaves_trace (env : Env) (row : BeaconRow) (s : Store) :
  (List.length (trace s) < List.length (trace (snd (_log_beacon env row s))))%nat.
Proof.
  destruct s as [[c b] tb tr], env as [co ao eo clo].
  destruct c as [[[|] au]|], co, ao, eo, clo, (b <? 0) eqn:Hb;
    run; rewrite ?Hb; simpl; rewrite ?length_app; simpl; rewrite ?length_app;
    simpl; lia.
Qed.

(** *** [resolve] *)

Lemma resolve_not_beacon (env : Env) request handler (s : Store) :
  is_beacon (q_qname request) = false ->
  resolve env request handler s
  = (Ok (set_rcode (reply_of request) NXDOMAIN), s).
Proof. intros H. unfold resolve, bind. now rewrite H. Qed.

Lemma resolve_beacon (env : Env) request handler (s : Store) :
  is_beacon (q_qname request) = true ->
  backoff_ok s ->
  resolve env request handler s
  = (Ok (set_rcode (reply_of request) NXDOMAIN),
     snd (_log_beacon env
            (beacon_row (q_qname request) (client_address handler)) s)).
Proof.
  intros H Hs. unfold resolve, bind. rewrite H.
  destruct (log_beacon_returns env
              (beacon_row (q_qname request) (client_address handler)) s Hs)
    as [E _].
  destruct (_log_beacon _ _ s) as [r s']. simpl in *. now rewrite E.
Qed.

Lemma resolve_backoff_ok (env : Env) request handler (s : Store) :
  backoff_ok s -> backoff_ok (snd (resolve env request handler s)).
Proof.
  intros H. destruct (is_beacon (q_qname request)) eqn:B.
  - rewrite resolve_beacon by assumption. simpl.
    now apply log_beacon_returns.
  - now rewrite resolve_not_beacon.
Qed.

Lemma reachable_backoff_ok (s : Store) : reachable s -> backoff_ok s.
Proof.
  induction 1 as [tb | s env rq h _ IH | s _ IH].
  - split; simpl; [lia | reflexivity].
  - now apply resolve_backoff_ok.
  - destruct IH as [Hb Hc]. split; simpl; [assumption|].
    intros Hn. apply Hc. destruct (_conn (self s)); [discriminate|].
    now simpl in Hn.
Qed.

(** *** Runs of failing connection attempts *)

Lemma sleeps_app (t u : list Event) : sleeps (t ++ u) = (sleeps t ++ sleeps u)%list.
Proof.
  induction t as [|e t IH]; simpl; [reflexivity|].
  destruct e; simpl; now rewrite IH.
Qed.

Lemma connects_app (t u : list Event) :
  connects (t ++ u) = (connects t ++ connects u)%list.
Proof. unfold connects. apply flat_map_app. Qed.

Lemma delay_succ (k : nat) : Z.min (delay k * 2) 60 = delay (S k).
Proof.
  unfold delay. rewrite Nat2Z.inj_succ, Z.pow_succ_r by lia.
  assert (0 < 2 ^ Z.of_nat k) by (apply Z.pow_pos_nonneg; lia).
  lia.
Qed.

Lemma delay_bounds (k : nat) : 1 <= delay k <= 60.
Proof.
  unfold delay.
  assert (0 < 2 ^ Z.of_nat k) by (apply Z.pow_pos_nonneg; lia).
  lia.
Qed.

Lemma delay_ceiling (k : nat) : (6 <= k)%nat -> delay k = 60.
Proof.
  intros H. unfold delay.
  assert (2 ^ 6 <= 2 ^ Z.of_nat k) by (apply Z.pow_le_mono_r; lia).
  change (2 ^ 6) with 64 in *. lia.
Qed.

Lemma failing_run (envs : list Env) :
  Forall (fun e => connect_succeeds e = false) envs ->
  forall (s : Store) (k : nat),
    needs_connect (_conn (self s)) = true ->
    _backoff (self s) = delay k ->
    sleeps (trace (snd (get_conn_run envs s)))
    = (sleeps (trace s) ++ map delay (seq k (List.length envs)))%list
    /\ Forall (fun r => r = Ok None) (fst (get_conn_run envs s))
    /\ connects (trace (snd (get_conn_run envs s)))
       = (connects (trace s) ++ map connect_ok envs)%list
    /\ dns_beacon_log (snd (get_conn_run envs s)) = dns_beacon_log s.
Proof.
  induction 1 as [|env envs Hf _ IH]; intros s k N B; simpl.
  - rewrite !app_nil_r. repeat split; constructor.
  - pose proof (delay_bounds k) as Hk.
    rewrite get_conn_failure by (assumption || lia).
    match goal with
    | |- context [get_conn_run envs ?s1] =>
        specialize (IH s1 (S k) eq_refl);
        destruct (get_conn_run envs s1) as [rs s2]
    end.
    simpl in IH |- *. rewrite B, delay_succ in IH.
    destruct (IH eq_refl) as (Hs & Hr & Hc & Ht).
    rewrite Hs, Hc, Ht, sleeps_app, connects_app.
    simpl. rewrite <- !app_assoc. simpl.
    repeat split. now constructor.
Qed.

(** *** The claims on the listener *)

(** C1 (as the code has it): for the query name that is exactly the
    suffix, the name counts as a beacon and a row is inserted, with
    src_hash and tool_version null; but the remainder [""] splits into the
    one label [""], so the fingerprint stored is the empty string, not
    null: the [else None] of the fingerprint is never taken. *)
Theorem suffix_only_fingerprint_is_empty_string :
  is_beacon BEACON_SUFFIX = true
  /\ prefix BEACON_SUFFIX = ""
  /\ parts BEACON_SUFFIX = [""]
  /\ decode BEACON_SUFFIX = (Some "", None, None)
  /\ (forall handler,
        dns_beacon_log (snd (resolve healthy suffix_only_request handler fresh))
        = [{| source_ip := peer_ip (client_address handler);
              source_port := peer_port (client_address handler);
              query_name := BEACON_SUFFIX;
              fingerprint := Some "";
              src_hash := None;
              tool_version := None |}])
  /\ (forall qname, fst (fst (decode qname)) <> None).
Proof.
  split; [reflexivity|]. split; [reflexivity|]. split; [reflexivity|].
  split; [reflexivity|]. split.
  - intros handler.
    rewrite resolve_beacon.
    + cbn [snd]. rewrite log_beacon_inserted by reflexivity. reflexivity.
    + reflexivity.
    + apply reachable_backoff_ok, (reach_start []).
  - intros qname. unfold decode, part_or_none; simpl.
    pose proof (split_length "." (prefix qname)) as H.
    unfold parts. destruct (split "." (prefix qname)); simpl in *;
      [lia | discriminate].
Qed.

(** C2: whatever the query and whatever the database does during the call
    (connection refused, insert raising, close raising), [resolve] returns,
    and the reply it returns carries the result code NXDOMAIN. *)
Theorem resolve_always_nxdomain
    (env : Env) (request : DNSRecord) (handler : Handler) (s : Store) :
  reachable s ->
  exists reply s',
    resolve env request handler s = (Ok reply, s')
    /\ header_rcode reply = NXDOMAIN
    /\ reply = set_rcode (reply_of request) NXDOMAIN.
Proof.
  intros R. apply reachable_backoff_ok in R.
  exists (set_rcode (reply_of request) NXDOMAIN).
  destruct (is_beacon (q_qname request)) eqn:B.
  - eexists. rewrite resolve_beacon by assumption. now repeat split.
  - exists s. rewrite resolve_not_beacon by assumption. now repeat split.
Qed.

Lemma resolve_always_nxdomain_witness :
  exists reply s',
    resolve failing suffix_only_request udp_peer fresh = (Ok reply, s')
    /\ header_rcode reply = NXDOMAIN
    /\ reply = set_rcode (reply_of suffix_only_request) NXDOMAIN.
Proof.
  apply (resolve_always_nxdomain failing suffix_only_request udp_peer fresh).
  apply (reach_start []).
Defined.

(** C3: from a new resolver, consecutive failed connection attempts sleep
    1, 2, 4, 8, 16, 32, 60, 60, ... (the [k]-th one [min (2^k) 60]), each
    attempt returns [None] after one connection attempt and one sleep, and
    the delay grows from [b] to [min (2 b) 60]; a successful connection
    puts the delay back to 1, so that the failures that follow it start
    the sequence again. *)
Theorem backoff_sequence (envs : list Env) (env : Env) (s : Store) :
  Forall (fun e => connect_succeeds e = false) envs ->
  reachable s ->
  needs_connect (_conn (self s)) = true ->
  (* the sequence from a new resolver *)
  sleeps (trace (snd (get_conn_run envs fresh)))
  = map delay (seq 0 (List.length envs))
  /\ Forall (fun r => r = Ok None) (fst (get_conn_run envs fresh))
  /\ connects (trace (snd (get_conn_run envs fresh))) = map connect_ok envs
  /\ map delay (seq 0 8) = [1; 2; 4; 8; 16; 32; 60; 60]
  /\ (forall k, 1 <= delay k <= 60)
  /\ (forall k, (6 <= k)%nat -> delay k = 60)
  (* one failure, from any store of a running listener *)
  /\ (connect_succeeds env = false ->
      _get_conn env s
      = (Ok None,
         {| self := {| _conn := None;
                       _backoff := Z.min (_backoff (self s) * 2) 60 |};
            dns_beacon_log := dns_beacon_log s;
            trace := trace s ++ [EvConnect (connect_ok env);
                                 EvSleep (_backoff (self s))] |})
      /\ 1 <= _backoff (self s) <= 60)
  (* one success, and the failures after it *)
  /\ (connect_succeeds env = true ->
      exists c s',
        _get_conn env s = (Ok (Some c), s')
        /\ _backoff (self s') = 1
        /\ sleeps (trace s') = sleeps (trace s)
        /\ sleeps (trace (snd (get_conn_run envs (drop_connection s'))))
           = (sleeps (trace s) ++ map delay (seq 0 (List.length envs)))%list).
Proof.
  intros F R N. pose proof (reachable_backoff_ok s R) as [Hb Hc].
  destruct (failing_run envs F fresh 0 eq_refl eq_refl) as (Hs & Hr & Hk & _).
  repeat split; try assumption; try apply delay_bounds.
  - apply delay_ceiling.
  - apply get_conn_failure; (assumption || lia).
  - lia.
  - lia.
  - intros C. do 2 eexists.
    rewrite get_conn_success by assumption.
    split; [reflexivity|]. split; [reflexivity|].
    split; [simpl; now rewrite sleeps_app, app_nil_r|].
    match goal with
    | |- context [get_conn_run envs ?s1] =>
        destruct (failing_run envs F s1 0 eq_refl eq_refl) as (Hs' & _)
    end.
    rewrite Hs'. simpl. now rewrite sleeps_app, app_nil_r.
Qed.

Lemma backoff_sequence_witness :
  sleeps (trace (snd (get_conn_run (repeat failing 8) fresh)))
  = [1; 2; 4; 8; 16; 32; 60; 60]
  /\ Forall (fun r => r = Ok None) (fst (get_conn_run (repeat failing 8) fresh)).
Proof.
  assert (F : Forall (fun e => connect_succeeds e = false) (repeat failing 8))
    by (repeat constructor).
  destruct (backoff_sequence (repeat failing 8) healthy fresh F
              (reach_start []) eq_refl) as (Hs & Hr & _).
  split; [exact Hs | exact Hr].
Defined.

(** C4: an insert that raises never reaches the caller of [_log_beacon]:
    the call returns normally, the connection is closed and forgotten, no
    row is written, the next acquisition connects again, and [resolve]
    still returns its reply. *)
Theorem insert_error_is_swallowed (env : Env) (row : BeaconRow) (s : Store) :
  reachable s ->
  fst (_log_beacon env row s) = Ok tt
  /\ (conn_available env s = true ->
      execute_ok env = false ->
      exists s',
        _log_beacon env row s = (Ok tt, s')
        /\ _conn (self s') = None
        /\ dns_beacon_log s' = dns_beacon_log s
        /\ trace s'
           = (trace (connected env s) ++ [EvInsertFailed row; EvClose])%list
        /\ (forall env',
              connects (trace (snd (_get_conn env' s')))
              = (connects (trace s') ++ [connect_ok env'])%list))
  /\ (forall request handler,
        fst (resolve env request handler s)
        = Ok (set_rcode (reply_of request) NXDOMAIN)).
Proof.
  intros R. pose proof (reachable_backoff_ok s R) as Hs.
  split; [now apply log_beacon_returns|]. split.
  - intros A E.
    destruct (log_beacon_returns env row s Hs) as [_ Hs'].
    rewrite log_beacon_insert_failed in * by assumption.
    eexists; split; [reflexivity|]. repeat split.
    intros env'. destruct Hs' as [Hb _]. simpl in Hb.
    destruct (connect_succeeds env') eqn:C.
    + rewrite get_conn_success by (assumption || reflexivity).
      simpl. rewrite !connects_app. simpl.
      unfold connect_succeeds in C. apply andb_true_iff in C as [-> _].
      reflexivity.
    + rewrite get_conn_failure by (assumption || reflexivity || (simpl; lia)).
      simpl. rewrite !connects_app. reflexivity.
  - intros request handler.
    destruct (is_beacon (q_qname request)) eqn:B.
    + now rewrite resolve_beacon.
    + now rewrite resolve_not_beacon.
Qed.

Lemma insert_error_is_swallowed_witness :
  fst (_log_beacon insert_fails
         (beacon_row BEACON_SUFFIX (client_address udp_peer)) fresh) = Ok tt
  /\ _conn (self (snd (_log_beacon insert_fails
         (beacon_row BEACON_SUFFIX (client_address udp_peer)) fresh))) = None.
Proof.
  destruct (insert_error_is_swallowed insert_fails
              (beacon_row BEACON_SUFFIX (client_address udp_peer)) fresh
              (reach_start []))
    as (H1 & H2 & _).
  split; [exact H1|].
  destruct (H2 eq_refl eq_refl) as (s' & E & Hc & _).
  rewrite E. exact Hc.
Defined.

(** *** Decoding by position *)

Lemma part_or_none_nth_error (ps : list string) (i : nat) :
  part_or_none ps i = nth_error ps i.
Proof.
  unfold part_or_none. destruct (i + 1 <=? List.length ps)%nat eqn:L.
  - apply Nat.leb_le in L. symmetry. apply nth_error_nth'. lia.
  - apply Nat.leb_gt in L. symmetry. apply nth_error_None. lia.
Qed.

Lemma decode_nth_error (qname : string) :
  decode qname
  = (nth_error (parts qname) 0,
     nth_error (parts qname) 1,
     option_map (replace "-" ".") (nth_error (parts qname) 2)).
Proof. unfold decode. now rewrite !part_or_none_nth_error. Qed.

Lemma Forall_take {A} (P : A -> Prop) (n : nat) (l : list A) :
  Forall P l -> Forall P (firstn n l).
Proof.
  intros H; revert n; induction H as [|x l Hx _ IH]; intros [|n]; simpl;
    constructor; auto.
Qed.

Lemma join_last (sep : string) (ls : list string) :
  ls <> [] -> exists x, join sep ls = x ++ last ls "".
Proof.
  induction ls as [|l ls IH]; [congruence|]. intros _.
  destruct ls as [|l' ls].
  - exists "". reflexivity.
  - destruct IH as [x E]; [discriminate|].
    exists (l ++ sep ++ x).
    change (join sep (l :: l' :: ls)) with (l ++ sep ++ join sep (l' :: ls)).
    rewrite E, !app_assoc_str. reflexivity.
Qed.

Lemma is_beacon_iff (qname : string) :
  is_beacon qname = true <-> ends_with_ci qname BEACON_SUFFIX.
Proof. apply endswith_lower_iff. Qed.

(** The remainder of a name built from labels is the joined labels *)
Lemma prefix_of_labels (labels : list string) (suffix : string) :
  labels <> [] ->
  Forall (fun l => l <> "" /\ contains "." l = false) labels ->
  lower suffix = lower BEACON_SUFFIX ->
  prefix (join "." labels ++ suffix) = join "." labels.
Proof.
  intros Hne Hl Hs.
  assert (Hlen : String.length suffix = String.length BEACON_SUFFIX)
    by (rewrite <- (lower_length suffix), Hs; apply lower_length).
  unfold prefix. rewrite <- Hlen. unfold slice_until_neg.
  destruct (String.length suffix) eqn:Hn; [discriminate|]. rewrite <- Hn.
  rewrite str_length_app.
  replace (String.length (join "." labels) + String.length suffix
           - String.length suffix)%nat
    with (String.length (join "." labels)) by lia.
  rewrite substring_app_l.
  destruct (join_last "." labels Hne) as [x E].
  assert (Hlast : last labels "" <> "" /\ contains "." (last labels "") = false).
  { rewrite Forall_forall in Hl. apply Hl.
    destruct labels; [congruence|]. apply (@exists_last _ (s :: labels)) in Hne.
    destruct Hne as (l' & a & ->). rewrite last_last.
    apply in_or_app. right. now left. }
  destruct Hlast as [Hne' Hdot].
  destruct (last_char _ Hne') as (p & a & Ea).
  rewrite Ea, contains_app in Hdot. apply orb_false_iff in Hdot as [_ Hdot].
  simpl in Hdot. rewrite orb_false_r in Hdot.
  rewrite E, Ea, <- app_assoc_str. now apply rstrip_keeps.
Qed.

(** C5: for a name made of labels followed by the suffix (in any case),
    the split of the remainder is the list of labels; the fingerprint is
    the label at position 0, src_hash the one at position 1, tool_version
    the one at position 2 with every [-] turned into [.]; a position the
    list does not have gives null; positions from 3 on are not read.  The
    same holds of [parts] for every name. *)
Theorem decode_by_position (labels : list string) (suffix : string) :
  labels <> [] ->
  Forall (fun l => l <> "" /\ contains "." l = false) labels ->
  lower suffix = lower BEACON_SUFFIX ->
  let qname := join "." labels ++ suffix in
  is_beacon qname = true
  /\ parts qname = labels
  /\ decode qname
     = (nth_error labels 0,
        nth_error labels 1,
        option_map (replace "-" ".") (nth_error labels 2))
  /\ decode qname = decode (join "." (firstn 3 labels) ++ suffix)
  /\ (forall source,
        (fingerprint (beacon_row qname source),
         src_hash (beacon_row qname source),
         tool_version (beacon_row qname source)) = decode qname)
  /\ (forall q,
        decode q
        = (nth_error (parts q) 0,
           nth_error (parts q) 1,
           option_map (replace "-" ".") (nth_error (parts q) 2))).
Proof.
  intros Hne Hl Hs qname.
  assert (Hparts : forall ls, ls <> [] ->
            Forall (fun l => l <> "" /\ contains "." l = false) ls ->
            parts (join "." ls ++ suffix) = ls).
  { intros ls H1 H2. unfold parts. rewrite prefix_of_labels by assumption.
    apply split_join; [assumption|].
    eapply Forall_impl; [|exact H2]. now intros l [_ H]. }
  split.
  { apply is_beacon_iff. now exists (join "." labels), suffix. }
  split; [now apply Hparts|].
  split; [rewrite decode_nth_error; unfold qname; now rewrite Hparts|].
  split.
  { rewrite !decode_nth_error. unfold qname. rewrite !Hparts; try assumption.
    - destruct labels as [|a [|b [|c [|d r]]]]; reflexivity.
    - destruct labels; [congruence | discriminate].
    - now apply Forall_take. }
  split; [|apply decode_nth_error].
  intros source. unfold beacon_row. now destruct (decode qname) as [[fp sh] tv].
Qed.

Lemma decode_by_position_witness :
  decode "abc123.deadbeef.1-2-3.b.backup-monitor.gr."
  = (Some "abc123", Some "deadbeef", Some "1.2.3").
Proof.
  refine (proj1 (proj2 (proj2
            (decode_by_position ["abc123"; "deadbeef"; "1-2-3"] BEACON_SUFFIX
               _ _ eq_refl)))).
  - discriminate.
  - repeat constructor; discriminate.
Defined.

(** C6: a name that does not end with the suffix up to case is not a
    beacon: [resolve] returns its reply and leaves the store as it was, no
    row, no connection attempt, nothing in the trace; a call of
    [_log_beacon] would have changed the store. *)
Theorem non_beacon_is_not_logged
    (env : Env) (request : DNSRecord) (handler : Handler) (s : Store) :
  ~ ends_with_ci (q_qname request) BEACON_SUFFIX ->
  is_beacon (q_qname request) = false
  /\ resolve env request handler s
     = (Ok (set_rcode (reply_of request) NXDOMAIN), s)
  /\ (forall env' row, snd (_log_beacon env' row s) <> s).
Proof.
  intros H.
  assert (B : is_beacon (q_qname request) = false).
  { destruct (is_beacon (q_qname request)) eqn:B; [|reflexivity].
    exfalso. apply H. now apply is_beacon_iff. }
  split; [assumption|]. split; [now apply resolve_not_beacon|].
  intros env' row E.
  pose proof (log_beacon_leaves_trace env' row s) as L.
  rewrite E in L. lia.
Qed.

Lemma non_beacon_is_not_logged_witness :
  is_beacon "b.backup-monitor.gr." = false
  /\ resolve healthy (question "b.backup-monitor.gr.") udp_peer fresh
     = (Ok (set_rcode (reply_of (question "b.backup-monitor.gr.")) NXDOMAIN),
        fresh).
Proof.
  refine (let H := non_beacon_is_not_logged healthy
                     (question "b.backup-monitor.gr.") udp_peer fresh _ in
          conj (proj1 H) (proj1 (proj2 H))).
  intros H. apply is_beacon_iff in H. discriminate H.
Defined.

End DnsFacts.

(** ** The HTTP API *)

Section ApiFacts.
Import PyStr Api.
Context {DT : DatetimeLib}.

Ltac step :=
  unfold client_timestamp, since_filter, select_from, pool_fetch,
    pool_execute, try_except_in, bind, lift, ret, raise, modify,
    datetime_fromisoformat, str_replace;
  simpl.

(** *** The client timestamp *)

Lemma client_timestamp_total (ts_raw : json) (s : Store) :
  client_timestamp ts_raw s = (Ok (spec_client_timestamp ts_raw), s).
Proof.
  destruct ts_raw as [|b|z|q|str|l|kv]; step; try reflexivity.
  - now destruct b.
  - now destruct (negb (z =? 0)).
  - now destruct (negb (Qnum q =? 0)).
  - destruct str as [|a r]; simpl; [reflexivity|].
    now destruct (fromisoformat _).
  - now destruct l.
  - now destruct kv.
Qed.

Lemma replace_trailing_Z (t : string) :
  contains "Z" t = false ->
  replace "Z" "+00:00" (t ++ "Z") = t ++ "+00:00".
Proof.
  intros H. rewrite replace_app, (replace_no_occurrence _ _ _ H). reflexivity.
Qed.

(** C7: for a JSON object as body, the row given to the INSERT has
    [event = "unknown"] when the body has no [event] key; its
    client_timestamp is the parse of the timestamp with [Z] replaced by
    [+00:00] when the timestamp is a non-empty string that parses, and
    null when it is absent, does not parse or is not a string; the
    timestamp handling returns for every JSON value, so that the request
    fails only where the peer address is missing or the INSERT raises. *)
Theorem ingest_event_and_timestamp
    (env : Env) (hs : list (string * string)) (cl : option (string * Z))
    (kv : list (string * json)) (s : Store) :
  let request := {| headers := hs; client := cl; body := JObject kv |} in
  let ts_raw := match assoc "timestamp" kv with Some v => v | None => JNull end in
  (* the request as a whole *)
  match source_ip_of request with
  | Raise e => ingest_telemetry env request s = (Raise e, s)
  | Ok ip =>
      exists row,
        t_source_ip row = ip
        /\ t_event row = match assoc "event" kv with
                         | Some v => v
                         | None => JString "unknown"
                         end
        /\ t_client_timestamp row = spec_client_timestamp ts_raw
        /\ t_raw_payload row = JObject kv
        /\ ingest_telemetry env request s
           = if execute_ok env row
             then (Ok (Json (JObject [("status", JString "ok")])),
                   {| telemetry_events := (telemetry_events s ++ [row])%list;
                      fetched := fetched s |})
             else (Raise PostgresError, s)
  end
  (* the timestamp handling on its own *)
  /\ (forall v, client_timestamp v s = (Ok (spec_client_timestamp v), s))
  /\ spec_client_timestamp (JString "2024-01-01T00:00:00Z")
     = fromisoformat "2024-01-01T00:00:00+00:00"
  /\ (forall t, contains "Z" t = false ->
        spec_client_timestamp (JString (t ++ "Z"))
        = fromisoformat (t ++ "+00:00"))
  /\ (forall str, fromisoformat (replace "Z" "+00:00" str) = None ->
        spec_client_timestamp (JString str) = None)
  /\ (forall v, (forall str, v <> JString str) ->
        spec_client_timestamp v = None)
  /\ (assoc "timestamp" kv = None -> spec_client_timestamp ts_raw = None).
Proof.
  intros request ts_raw. split.
  - unfold ingest_telemetry. unfold bind at 1. unfold lift at 1.
    destruct (source_ip_of request) as [ip|e]; [|reflexivity].
    eexists.
    split; [|split; [|split; [|split]]]; cycle 4.
    + unfold request; cbn [body dict_get]. unfold bind at 1; unfold lift at 1.
      unfold bind at 1. rewrite client_timestamp_total.
      unfold bind, lift, pool_execute, ret, modify, raise.
      match goal with
      | |- context [if execute_ok env ?r then (fun _ => _) else _] =>
          match goal with
          | |- _ = (if execute_ok env ?e then _ else _) => unify e r
          end;
          destruct (execute_ok env r)
      end; reflexivity.
    + reflexivity.
    + reflexivity.
    + reflexivity.
    + reflexivity.
  - split; [intros v; apply client_timestamp_total|].
    split; [reflexivity|].
    split.
    { intros t H. destruct t as [|a r]; [reflexivity|].
      simpl app. unfold spec_client_timestamp.
      now rewrite <- (replace_trailing_Z (String a r) H). }
    split.
    { intros str H. destruct str; [reflexivity | exact H]. }
    split.
    { intros v H. destruct v; try reflexivity. now destruct (H s0). }
    intros H. unfold ts_raw. now rewrite H.
Qed.

(** *** The [since] filter *)

Lemma since_filter_invalid (since : option string) (f : Filter) (s : Store) :
  since_invalid since = true ->
  since_filter since f s = (Ok (inl invalid_since), s).
Proof.
  destruct since as [[|a r]|]; simpl; try discriminate.
  step. now destruct (fromisoformat _).
Qed.

Lemma since_filter_valid (since : option string) (f : Filter) (s : Store) :
  since_invalid since = false ->
  exists f', since_filter since f s = (Ok (inr f'), s).
Proof.
  destruct since as [[|a r]|]; simpl; try (now exists f).
  step. destruct (fromisoformat _); [|discriminate].
  intros _. now eexists.
Qed.

Lemma since_invalid_iff (since : string) :
  since_invalid (Some since) = true
  <-> since <> "" /\ fromisoformat (replace "Z" "+00:00" since) = None.
Proof.
  destruct since as [|a r]; simpl.
  - split; [discriminate|]. intros [H _]. now destruct H.
  - destruct (fromisoformat _); split.
    + discriminate.
    + intros [_ H]. discriminate H.
    + intros _. split; [discriminate | reflexivity].
    + reflexivity.
Qed.

(** C8: a [since] that is not empty and does not parse once [Z] is
    replaced by [+00:00] makes both query endpoints return the 400
    response with the message [invalid 'since' format]; the store is left
    as it was, so no statement went to the pool. *)
Theorem malformed_since_is_client_error
    (env : Env) (fingerprint environment : option string) (since : string)
    (limit : option Z) (s : Store) :
  since <> "" ->
  fromisoformat (replace "Z" "+00:00" since) = None ->
  query_telemetry env fingerprint environment (Some since) limit s
  = (Ok (JSONResponse
           (JObject [("error", JString "invalid 'since' format")]) 400), s)
  /\ query_dns env fingerprint (Some since) limit s
     = (Ok (JSONResponse
              (JObject [("error", JString "invalid 'since' format")]) 400), s)
  /\ fetched (snd (query_telemetry env fingerprint environment
                     (Some since) limit s)) = fetched s
  /\ fetched (snd (query_dns env fingerprint (Some since) limit s))
     = fetched s.
Proof.
  intros Hne Hp.
  assert (I : since_invalid (Some since) = true)
    by (apply since_invalid_iff; now split).
  assert (T : query_telemetry env fingerprint environment (Some since) limit s
              = (Ok invalid_since, s)).
  { unfold query_telemetry, bind. now rewrite since_filter_invalid. }
  assert (D : query_dns env fingerprint (Some since) limit s
              = (Ok invalid_since, s)).
  { unfold query_dns, bind. now rewrite since_filter_invalid. }
  rewrite T, D. now repeat split.
Qed.

(** *** The limit *)

Lemma select_from_limit (env : Env) (table : string) (f : Filter) (l : Z)
    (s : Store) :
  exists q,
    fetched (snd (select_from env table f l s)) = (fetched s ++ [q])%list
    /\ limit_of q = Some (clamp_limit l)
    /\ telemetry_events (snd (select_from env table f l s))
       = telemetry_events s.
Proof.
  eexists. unfold select_from. step.
  split; [|split].
  - destruct (fetch_result env _); simpl; reflexivity.
  - unfold limit_of; simpl. now rewrite last_last.
  - destruct (fetch_result env _); reflexivity.
Qed.

(** C9: the statement either endpoint runs carries as its limit
    [min (max 1 limit) 1000], where an absent [limit] counts as 100: 5000
    becomes 1000, 0 becomes 1, nothing becomes 100; apart from the
    refused [since], exactly one statement is run. *)
Theorem limit_is_clamped
    (env : Env) (fingerprint environment since : option string)
    (limit : option Z) (s : Store) :
  let l := match limit with Some l => l | None => 100 end in
  let effective := Z.min (Z.max 1 l) 1000 in
  (if since_invalid since
   then fetched (snd (query_telemetry env fingerprint environment since limit s))
        = fetched s
        /\ fetched (snd (query_dns env fingerprint since limit s)) = fetched s
   else (exists q,
           fetched (snd (query_telemetry env fingerprint environment
                           since limit s)) = (fetched s ++ [q])%list
           /\ limit_of q = Some effective)
        /\ (exists q,
              fetched (snd (query_dns env fingerprint since limit s))
              = (fetched s ++ [q])%list
              /\ limit_of q = Some effective))
  /\ 1 <= effective <= 1000
  /\ (1 <= l <= 1000 -> effective = l)
  /\ clamp_limit 5000 = 1000
  /\ clamp_limit 0 = 1
  /\ clamp_limit DEFAULT_LIMIT = 100
  /\ args (last (fetched (snd (query_telemetry env None None None
                                 (Some 5000) s))) {| sql := ""; args := [] |})
     = [ArgInt 1000]
  /\ args (last (fetched (snd (query_dns env None None (Some 0) s)))
             {| sql := ""; args := [] |})
     = [ArgInt 1]
  /\ args (last (fetched (snd (query_telemetry env None None None None s)))
             {| sql := ""; args := [] |})
     = [ArgInt 100].
Proof.
  intros l effective. split; [|repeat split; try (unfold effective; lia)].
  - destruct (since_invalid since) eqn:I.
    + unfold query_telemetry, query_dns, bind.
      rewrite !since_filter_invalid by assumption. now split.
    + unfold query_telemetry, query_dns, bind. split.
      * destruct (since_filter_valid since
                    (equality_filter "environment" environment
                       (equality_filter "fingerprint" fingerprint no_filter))
                    s I) as [f' ->].
        destruct (select_from_limit env "telemetry_events" f' l s)
          as (q & Hq & Hl & _).
        exists q. split; [exact Hq | exact Hl].
      * destruct (since_filter_valid since
                    (equality_filter "fingerprint" fingerprint no_filter)
                    s I) as [f' ->].
        destruct (select_from_limit env "dns_beacon_log" f' l s)
          as (q & Hq & Hl & _).
        exists q. split; [exact Hq | exact Hl].
  - unfold query_telemetry, bind; step.
    destruct (fetch_result env _); simpl; now rewrite last_last.
  - unfold query_dns, bind; step.
    destruct (fetch_result env _); simpl; now rewrite last_last.
  - unfold query_telemetry, bind; step.
    destruct (fetch_result env _); simpl; now rewrite last_last.
Qed.

(** C10: on both query endpoints an empty [fingerprint], [environment]
    or [since] gives the result, the statement and the store that the
    absent parameter gives; an empty [since] is not refused. *)
Theorem empty_parameter_is_absent
    (env : Env) (fingerprint environment since : option string)
    (limit : option Z) (s : Store) :
  query_telemetry env (Some "") environment since limit s
  = query_telemetry env None environment since limit s
  /\ query_telemetry env fingerprint (Some "") since limit s
     = query_telemetry env fingerprint None since limit s
  /\ query_telemetry env fingerprint environment (Some "") limit s
     = query_telemetry env fingerprint environment None limit s
  /\ query_dns env (Some "") since limit s
     = query_dns env None since limit s
  /\ query_dns env fingerprint (Some "") limit s
     = query_dns env fingerprint None limit s
  /\ since_invalid (Some "") = false
  /\ fst (query_telemetry env fingerprint environment (Some "") limit s)
     <> Ok invalid_since
  /\ fst (query_dns env fingerprint (Some "") limit s) <> Ok invalid_since
  /\ (forall column f, equality_filter column (Some "") f = f)
  /\ (forall f, since_filter (Some "") f s = (Ok (inr f), s))
  /\ fetched (snd (query_telemetry env (Some "") (Some "") (Some "") limit s))
     = (fetched s
        ++ [{| sql := "SELECT * FROM telemetry_events  ORDER BY received_at DESC LIMIT $1";
               args := [ArgInt (clamp_limit
                                  match limit with
                                  | Some l => l
                                  | None => DEFAULT_LIMIT
                                  end)] |}])%list.
Proof.
  repeat split; try reflexivity.
  - unfold query_telemetry, bind; step.
    destruct (fetch_result env _); discriminate.
  - unfold query_dns, bind; step.
    destruct (fetch_result env _); discriminate.
  - unfold query_telemetry, bind; step.
    destruct (fetch_result env _); reflexivity.
Qed.

End ApiFacts.

(** ** The claims on the API, run on sample requests *)

Section ApiRuns.
Import PyStr Api Samples.

Lemma ingest_event_and_timestamp_witness :
  (exists row : @TelemetryRow Iso8601.lib,
     t_event row = JString "unknown"
     /\ t_client_timestamp row = Some midnight_utc
     /\ ingest_telemetry pool_up
          (post (JObject [("timestamp", JString "2024-01-01T00:00:00Z")]))
          empty_store
        = (Ok (Json (JObject [("status", JString "ok")])),
           {| telemetry_events := [row]; fetched := [] |}))
  /\ @spec_client_timestamp Iso8601.lib (JString "not-a-date") = None
  /\ @client_timestamp Iso8601.lib (JInt 1704067200) empty_store
     = (Ok None, empty_store).
Proof.
  pose proof (@ingest_event_and_timestamp Iso8601.lib pool_up
                [("x-forwarded-for", " 203.0.113.9 , 10.0.0.1")]
                (Some ("10.0.0.1", 41000))
                [("timestamp", JString "2024-01-01T00:00:00Z")]
                empty_store) as H.
  cbv zeta in H. destruct H as (H0 & H1 & _ & _ & H3 & _).
  split; [|split].
  - destruct H0 as (row & _ & Hev & Hts & _ & Hrun).
    exists row. split; [exact Hev|]. split; [exact Hts | exact Hrun].
  - apply H3. reflexivity.
  - apply H1.
Defined.

Lemma malformed_since_is_client_error_witness :
  query_telemetry pool_up (Some "abc123") None (Some "not-a-date") None
    empty_store
  = (Ok (JSONResponse
           (JObject [("error", JString "invalid 'since' format")]) 400),
     empty_store)
  /\ query_dns pool_up (Some "abc123") (Some "not-a-date") None empty_store
     = (Ok (JSONResponse
              (JObject [("error", JString "invalid 'since' format")]) 400),
        empty_store).
Proof.
  destruct (@malformed_since_is_client_error Iso8601.lib pool_up
              (Some "abc123") None "not-a-date" None empty_store)
    as (H1 & H2 & _).
  - discriminate.
  - reflexivity.
  - split; [exact H1 | exact H2].
Defined.

Lemma limit_is_clamped_witness :
  (exists q,
     fetched (snd (query_telemetry pool_up None None None (Some 5000)
                     empty_store)) = [q]
     /\ limit_of q = Some 1000)
  /\ (exists q,
        fetched (snd (query_dns pool_up None None (Some 0) empty_store)) = [q]
        /\ limit_of q = Some 1)
  /\ (exists q,
        fetched (snd (query_telemetry pool_up None None None None
                        empty_store)) = [q]
        /\ limit_of q = Some 100).
Proof.
  split; [|split].
  - exact (proj1 (proj1 (@limit_is_clamped Iso8601.lib pool_up
                           None None None (Some 5000) empty_store))).
  - exact (proj2 (proj1 (@limit_is_clamped Iso8601.lib pool_up
                           None None None (Some 0) empty_store))).
  - exact (proj1 (proj1 (@limit_is_clamped Iso8601.lib pool_up
                           None None None None empty_store))).
Defined.

End ApiRuns.

(** ** More on the listener *)

Section DnsMore.
Import PyStr Dns DnsRuns.

(** X1: a query writes at most one row and never touches the rows already
    in the table: the table after [resolve] is the table before, followed
    by the row of the query exactly when the name is a beacon, a
    connection is at hand and the INSERT goes through. *)
Theorem resolve_row_accounting
    (env : Env) (request : DNSRecord) (handler : Handler) (s : Store) :
  reachable s ->
  dns_beacon_log (snd (resolve env request handler s))
  = (dns_beacon_log s
     ++ (if is_beacon (q_qname request) && conn_available env s
            && execute_ok env
         then [beacon_row (q_qname request) (client_address handler)]
         else []))%list.
Proof.
  intros R. pose proof (reachable_backoff_ok s R) as Hs.
  destruct (is_beacon (q_qname request)) eqn:B; cbn [andb].
  - rewrite resolve_beacon by assumption. cbn [snd].
    destruct (conn_available env s) eqn:A; cbn [andb].
    + destruct (execute_ok env) eqn:E.
      * now rewrite log_beacon_inserted by assumption.
      * rewrite log_beacon_insert_failed by assumption.
        cbn [snd dns_beacon_log]. now rewrite app_nil_r.
    + rewrite log_beacon_unavailable by assumption.
      cbn [snd dns_beacon_log]. now rewrite app_nil_r.
  - rewrite resolve_not_beacon by assumption.
    cbn [snd]. now rewrite app_nil_r.
Qed.

Lemma resolve_row_accounting_witness :
  dns_beacon_log (snd (resolve healthy
                         (question "abc123.deadbeef.1-2-3.b.backup-monitor.gr.")
                         udp_peer fresh))
  = [{| source_ip := Some (PyStr "198.51.100.7");
        source_port := Some (PyInt 53124);
        query_name := "abc123.deadbeef.1-2-3.b.backup-monitor.gr.";
        fingerprint := Some "abc123";
        src_hash := Some "deadbeef";
        tool_version := Some "1.2.3" |}].
Proof.
  exact (resolve_row_accounting healthy
           (question "abc123.deadbeef.1-2-3.b.backup-monitor.gr.")
           udp_peer fresh (reach_start [])).
Defined.

(** The resolver object after [resolve], case by case *)
Lemma resolve_self (env : Env) request handler (s : Store) :
  backoff_ok s ->
  self (snd (resolve env request handler s)) = self s
  \/ _conn (self (snd (resolve env request handler s))) = None
  \/ _conn (self (snd (resolve env request handler s)))
     = Some {| closed := false; autocommit := true |}.
Proof.
  intros Hs. destruct (is_beacon (q_qname request)) eqn:B.
  - rewrite resolve_beacon by assumption. cbn [snd].
    destruct (conn_available env s) eqn:A.
    + destruct (execute_ok env) eqn:E.
      * rewrite log_beacon_inserted by assumption. cbn [snd self].
        unfold connected. destruct (needs_connect _); auto.
      * rewrite log_beacon_insert_failed by assumption. auto.
    + rewrite log_beacon_unavailable by assumption. auto.
  - rewrite resolve_not_beacon by assumption. auto.
Qed.

(** X2: what holds of the resolver object throughout the life of the
    listener: the delay is between 1 and 60; while a connection is held
    the delay is 1 and the connection is in autocommit mode. *)
Theorem resolver_invariants (s : Store) :
  reachable s ->
  1 <= _backoff (self s) <= 60
  /\ (forall c, _conn (self s) = Some c ->
        _backoff (self s) = 1 /\ autocommit c = true).
Proof.
  intros R. pose proof (reachable_backoff_ok s R) as [Hb Hc].
  split; [assumption|]. intros c E.
  split; [apply Hc; congruence|].
  revert c E. clear Hb Hc.
  induction R as [tb | s env rq h R IH | s R IH]; intros c E.
  - discriminate E.
  - destruct (resolve_self env rq h s (reachable_backoff_ok s R))
      as [H | [H | H]].
    + rewrite H in E. now apply IH.
    + congruence.
    + rewrite H in E. now injection E as <-.
  - simpl in E. destruct (_conn (self s)) as [c0|] eqn:E0; [|discriminate].
    simpl in E. injection E as <-. simpl. now apply IH.
Qed.

Lemma resolver_invariants_witness :
  1 <= _backoff (self (snd (resolve failing suffix_only_request udp_peer fresh)))
    <= 60.
Proof.
  exact (proj1 (resolver_invariants _
                  (reach_resolve fresh failing suffix_only_request udp_peer
                     (reach_start [])))).
Defined.

(** X3: one query costs at most one connection attempt and at most one
    sleep, of at most 60: the events a call adds to the trace contain a
    connection attempt exactly when the name is a beacon and no open
    connection is held, and a sleep, of the current delay, exactly when
    that attempt fails. *)
Theorem resolve_bounded_wait
    (env : Env) (request : DNSRecord) (handler : Handler) (s : Store) :
  reachable s ->
  exists events,
    trace (snd (resolve env request handler s)) = (trace s ++ events)%list
    /\ connects events
       = (if is_beacon (q_qname request) && needs_connect (_conn (self s))
          then [connect_ok env] else [])
    /\ sleeps events
       = (if is_beacon (q_qname request) && needs_connect (_conn (self s))
             && negb (connect_succeeds env)
          then [_backoff (self s)] else [])
    /\ 1 <= _backoff (self s) <= 60.
Proof.
  intros R. pose proof (reachable_backoff_ok s R) as Hs.
  pose proof Hs as [Hb _].
  destruct (is_beacon (q_qname request)) eqn:B; cbn [andb].
  - rewrite resolve_beacon by assumption. cbn [snd].
    destruct (conn_available env s) eqn:A.
    + assert (C : needs_connect (_conn (self s)) = true ->
                  connect_succeeds env = true).
      { intros N. unfold conn_available in A. now rewrite N in A. }
      assert (K : needs_connect (_conn (self s)) = true ->
                  connect_ok env = true).
      { intros N. specialize (C N). unfold connect_succeeds in C.
        now apply andb_true_iff in C as [-> _]. }
      destruct (execute_ok env) eqn:E.
      * rewrite log_beacon_inserted by assumption. cbn [snd trace].
        unfold connected.
        destruct (needs_connect (_conn (self s))) eqn:N; cbn [andb negb].
        -- rewrite (C eq_refl), (K eq_refl). cbn [negb trace].
           rewrite <- app_assoc. eexists; split; [reflexivity|].
           now repeat split.
        -- eexists; split; [reflexivity|]. now repeat split.
      * rewrite log_beacon_insert_failed by assumption. cbn [snd trace].
        unfold connected.
        destruct (needs_connect (_conn (self s))) eqn:N; cbn [andb negb].
        -- rewrite (C eq_refl), (K eq_refl). cbn [negb trace].
           rewrite <- app_assoc. eexists; split; [reflexivity|].
           now repeat split.
        -- eexists; split; [reflexivity|]. now repeat split.
    + rewrite log_beacon_unavailable by assumption. cbn [snd trace].
      unfold conn_available in A. apply orb_false_iff in A as [N C].
      apply negb_false_iff in N. rewrite N, C. cbn [andb negb].
      eexists; split; [reflexivity|]. now repeat split.
  - rewrite resolve_not_beacon by assumption. cbn [snd].
    exists []. rewrite app_nil_r. now repeat split.
Qed.

Lemma resolve_bounded_wait_witness :
  exists events,
    trace (snd (resolve failing suffix_only_request udp_peer fresh)) = events
    /\ connects events = [false]
    /\ sleeps events = [1].
Proof.
  destruct (resolve_bounded_wait failing suffix_only_request udp_peer fresh
              (reach_start [])) as (events & Ht & Hc & Hs & _).
  exists events. split; [exact Ht|]. split; [exact Hc | exact Hs].
Defined.

(** *** Several queries while the database is up *)

Lemma connected_open (env : Env) (s : Store) :
  conn_available env s = true ->
  needs_connect (_conn (self (connected env s))) = false.
Proof.
  unfold conn_available, connected.
  destruct (needs_connect (_conn (self s))) eqn:N; [reflexivity|].
  now rewrite N.
Qed.

Lemma connected_backoff_ok (env : Env) (s : Store) :
  backoff_ok s -> backoff_ok (connected env s).
Proof.
  intros H. unfold connected. destruct (needs_connect _); [|assumption].
  split; simpl; [lia | reflexivity].
Qed.

Lemma storage_up_run (calls : list Call) :
  Forall storage_up calls ->
  forall s : Store,
    backoff_ok s ->
    dns_beacon_log (snd (resolve_run calls s))
    = (dns_beacon_log s ++ beacon_rows calls)%list
    /\ connects (trace (snd (resolve_run calls s)))
       = (connects (trace s)
          ++ (if needs_connect (_conn (self s)) && any_beacon calls
              then [true] else []))%list
    /\ sleeps (trace (snd (resolve_run calls s))) = sleeps (trace s)
    /\ fst (resolve_run calls s)
       = map (fun c : Call =>
                let '(_, request, _) := c in
                Ok (set_rcode (reply_of request) NXDOMAIN)) calls.
Proof.
  induction 1 as [|[[env rq] h] calls [Hc He] _ IH]; intros s Hs.
  - simpl. rewrite andb_false_r, !app_nil_r. now repeat split.
  - assert (A : conn_available env s = true)
      by (unfold conn_available; rewrite Hc; apply orb_true_r).
    cbn [resolve_run beacon_rows any_beacon flat_map existsb map].
    destruct (is_beacon (q_qname rq)) eqn:B.
    + rewrite resolve_beacon by assumption. cbn [snd].
      rewrite log_beacon_inserted by assumption. cbn [snd].
      match goal with
      | |- context [resolve_run calls ?s1] =>
          assert (H1 : backoff_ok s1);
          [ destruct (connected_backoff_ok env s Hs) as [Hb Hk];
            split; [exact Hb | exact Hk]
          | destruct (IH s1 H1) as (Hl & Hn & Hp & Hr);
            destruct (resolve_run calls s1) as [rs s2] ]
      end.
      cbn [fst snd self dns_beacon_log trace] in *.
      rewrite Hl, Hn, Hp, Hr, (connected_open env s A).
      cbn [andb orb]. rewrite !connects_app, !sleeps_app, andb_true_r.
      cbn [connects sleeps flat_map app]. rewrite !app_nil_r.
      unfold connected.
      destruct (needs_connect (_conn (self s))); cbn [trace];
        rewrite ?connects_app, ?sleeps_app; cbn [connects sleeps flat_map app];
        rewrite ?app_nil_r, <- ?app_assoc; now repeat split.
    + rewrite resolve_not_beacon by assumption.
      destruct (IH s Hs) as (Hl & Hn & Hp & Hr).
      destruct (resolve_run calls s) as [rs s2].
      cbn [fst snd orb app] in *. rewrite Hl, Hn, Hp, Hr. now repeat split.
Qed.

(** X4: while the database accepts connections and inserts, a sequence
    of queries from a new resolver writes the rows of its beacon queries,
    all of them and in the order of arrival, over a single connection made
    at the first beacon, without ever sleeping; every query gets its
    NXDOMAIN reply. *)
Theorem storage_up_rows_in_order (calls : list Call) :
  Forall storage_up calls ->
  dns_beacon_log (snd (resolve_run calls fresh)) = beacon_rows calls
  /\ connects (trace (snd (resolve_run calls fresh)))
     = (if any_beacon calls then [true] else [])
  /\ sleeps (trace (snd (resolve_run calls fresh))) = []
  /\ fst (resolve_run calls fresh)
     = map (fun c : Call =>
              let '(_, request, _) := c in
              Ok (set_rcode (reply_of request) NXDOMAIN)) calls.
Proof.
  intros F.
  apply (storage_up_run calls F fresh).
  apply reachable_backoff_ok, (reach_start []).
Qed.

Lemma storage_up_rows_in_order_witness :
  map fingerprint (dns_beacon_log (snd (resolve_run three_calls fresh)))
  = [Some "abc123"; Some "f00d"]
  /\ connects (trace (snd (resolve_run three_calls fresh))) = [true].
Proof.
  assert (F : Forall storage_up three_calls)
    by (repeat constructor).
  destruct (storage_up_rows_in_order three_calls F) as (Hl & Hc & _).
  split; [now rewrite Hl | exact Hc].
Defined.

(** X5: a row whose INSERT raised is lost, and the listener recovers on
    the next beacon: once the database is up again, the next call connects
    anew, writes its own row and only that one, and holds an open
    connection with the delay at 1. *)
Theorem insert_failure_recovery
    (env env' : Env) (r1 r2 : BeaconRow) (s : Store) :
  reachable s ->
  conn_available env s = true ->
  execute_ok env = false ->
  connect_succeeds env' = true ->
  execute_ok env' = true ->
  let s1 := snd (_log_beacon env r1 s) in
  let s2 := snd (_log_beacon env' r2 s1) in
  dns_beacon_log s1 = dns_beacon_log s
  /\ dns_beacon_log s2 = (dns_beacon_log s ++ [r2])%list
  /\ self s2 = {| _conn := Some {| closed := false; autocommit := true |};
                  _backoff := 1 |}
  /\ connects (trace s2) = (connects (trace s1) ++ [true])%list
  /\ sleeps (trace s2) = sleeps (trace s).
Proof.
  intros R A E C E' s1 s2. subst s1 s2.
  rewrite log_beacon_insert_failed by assumption. cbn [snd].
  rewrite log_beacon_inserted;
    [| unfold conn_available; rewrite C; apply orb_true_r | assumption].
  cbn [snd dns_beacon_log self trace]. unfold connected.
  cbn [self _conn needs_connect].
  destruct (needs_connect (_conn (self s)));
    cbn [trace dns_beacon_log self];
    rewrite ?connects_app, ?sleeps_app; cbn [sleeps app];
    rewrite ?app_nil_r; now repeat split.
Qed.

Lemma insert_failure_recovery_witness :
  dns_beacon_log
    (snd (_log_beacon healthy
            (beacon_row "f00d.b.backup-monitor.gr." (client_address udp_peer))
            (snd (_log_beacon insert_fails
                    (beacon_row BEACON_SUFFIX (client_address udp_peer))
                    fresh))))
  = [beacon_row "f00d.b.backup-monitor.gr." (client_address udp_peer)].
Proof.
  exact (proj1 (proj2
           (insert_failure_recovery insert_fails healthy
              (beacon_row BEACON_SUFFIX (client_address udp_peer))
              (beacon_row "f00d.b.backup-monitor.gr." (client_address udp_peer))
              fresh (reach_start []) eq_refl eq_refl eq_refl eq_refl))).
Defined.

End DnsMore.

(** ** More on the decoding *)

Section DecodeMore.
Import PyStr Dns DnsRuns.

Lemma split_parts_no_sep (c : ascii) (s : string) :
  Forall (fun p => contains c p = false) (split c s).
Proof.
  induction s as [|a s IH]; simpl; [now repeat constructor|].
  destruct (Ascii.eqb a c) eqn:E; [now constructor|].
  destruct (split c s) as [|h t]; [now repeat constructor; simpl; rewrite E|].
  inversion IH as [|? ? Hh Ht]; subst.
  constructor; [simpl; now rewrite E, Hh | assumption].
Qed.

Lemma replace_removes (c : ascii) (new s : string) :
  contains c new = false -> contains c (replace c new s) = false.
Proof.
  intros H. induction s as [|a s IH]; simpl; [reflexivity|].
  destruct (Ascii.eqb a c) eqn:E.
  - now rewrite contains_app, H, IH.
  - simpl. now rewrite E, IH.
Qed.

Lemma part_or_none_in (ps : list string) (i : nat) (x : string) :
  part_or_none ps i = Some x -> In x ps.
Proof.
  rewrite part_or_none_nth_error. apply nth_error_In.
Qed.

(** X6: the decoded fields are free of separators: for every query name,
    a fingerprint and a src_hash never contain a dot, and a tool_version
    never contains a hyphen. *)
Theorem decoded_fields_have_no_separator (qname : string) :
  (forall fp, fst (fst (decode qname)) = Some fp -> contains "." fp = false)
  /\ (forall sh, snd (fst (decode qname)) = Some sh -> contains "." sh = false)
  /\ (forall tv, snd (decode qname) = Some tv -> contains "-" tv = false).
Proof.
  pose proof (split_parts_no_sep "." (prefix qname)) as F.
  rewrite Forall_forall in F. fold (parts qname) in F.
  unfold decode; cbn [fst snd]. split; [|split].
  - intros fp H. apply F. eapply part_or_none_in; eassumption.
  - intros sh H. apply F. eapply part_or_none_in; eassumption.
  - intros tv H. destruct (part_or_none (parts qname) 2); [|discriminate].
    injection H as <-. now apply replace_removes.
Qed.

(** *** From the parts back to the name *)

Lemma join_cons_char (sep : string) (a : ascii) (h : string) (t : list string) :
  join sep (String a h :: t) = String a (join sep (h :: t)).
Proof. destruct t; reflexivity. Qed.

Lemma join_split (c : ascii) (s : string) :
  join (String c "") (split c s) = s.
Proof.
  induction s as [|a s IH]; [reflexivity|]. simpl split.
  destruct (Ascii.eqb a c) eqn:E.
  - apply Ascii.eqb_eq in E. subst a.
    pose proof (split_not_nil c s) as N.
    destruct (split c s) as [|h t]; [congruence|].
    change (join (String c "") ("" :: h :: t))
      with (String c (join (String c "") (h :: t))).
    now rewrite IH.
  - pose proof (split_not_nil c s) as N.
    destruct (split c s) as [|h t]; [congruence|].
    now rewrite join_cons_char, IH.
Qed.

Lemma lstrip_chars_spec (c : ascii) (l : list ascii) :
  exists n, l = (List.repeat c n ++ lstrip_chars c l)%list
            /\ (forall r, lstrip_chars c l <> c :: r).
Proof.
  induction l as [|a l (n & E & H)]; simpl.
  - exists 0%nat. split; [reflexivity | discriminate].
  - destruct (Ascii.eqb a c) eqn:Ea.
    + apply Ascii.eqb_eq in Ea. subst a.
      exists (S n). split; [simpl; now rewrite <- E | exact H].
    + exists 0%nat. split; [reflexivity|].
      intros r [= -> _]. now rewrite Ascii.eqb_refl in Ea.
Qed.

Lemma string_of_list_app (a b : list ascii) :
  string_of_list_ascii (a ++ b)
  = string_of_list_ascii a ++ string_of_list_ascii b.
Proof. induction a as [|x a IH]; simpl; [reflexivity | now rewrite IH]. Qed.

Lemma rev_repeat_char (c : ascii) (n : nat) :
  rev (List.repeat c n) = List.repeat c n.
Proof.
  induction n as [|n IH]; [reflexivity|]. simpl. rewrite IH.
  clear IH. induction n as [|n IH]; [reflexivity|]. simpl. now rewrite IH.
Qed.

Lemma dots_repeat (n : nat) : string_of_list_ascii (List.repeat "."%char n) = dots n.
Proof. induction n as [|n IH]; simpl; [reflexivity | now rewrite IH]. Qed.

(** [rstrip] takes dots off the end, all of them and nothing else *)
Lemma rstrip_spec (s : string) :
  (exists n, s = rstrip "." s ++ dots n)
  /\ (forall p, rstrip "." s <> p ++ ".").
Proof.
  unfold rstrip.
  destruct (lstrip_chars_spec "." (rev (list_ascii_of_string s)))
    as (n & E & H).
  split.
  - exists n. apply (f_equal (@rev ascii)) in E.
    rewrite rev_involutive, rev_app_distr, rev_repeat_char in E.
    apply (f_equal string_of_list_ascii) in E.
    now rewrite string_of_list_ascii_of_string, string_of_list_app,
      dots_repeat in E.
  - intros p Hp. apply (f_equal list_ascii_of_string) in Hp.
    rewrite list_ascii_of_string_of_list_ascii, list_ascii_app in Hp.
    apply (f_equal (@rev ascii)) in Hp.
    rewrite rev_involutive, rev_app_distr in Hp. simpl in Hp.
    exact (H _ Hp).
Qed.

Lemma slice_of_beacon (p t : string) :
  lower t = lower BEACON_SUFFIX ->
  slice_until_neg (p ++ t) (String.length BEACON_SUFFIX) = p.
Proof.
  intros Ht.
  assert (Hlen : String.length t = String.length BEACON_SUFFIX)
    by (rewrite <- (lower_length t), Ht; apply lower_length).
  rewrite <- Hlen. unfold slice_until_neg.
  destruct (String.length t) eqn:Hn; [discriminate|]. rewrite <- Hn.
  rewrite str_length_app.
  replace (String.length p + String.length t - String.length t)%nat
    with (String.length p) by lia.
  apply substring_app_l.
Qed.

(** X7: nothing of a beacon name is lost in the split.  Joining the parts
    with dots gives the remainder back; the remainder never ends with a
    dot; and the query name is the remainder, followed by the dots that
    were stripped, followed by its last 21 characters, which are the
    suffix up to case. *)
Theorem decode_round_trip (qname : string) :
  is_beacon qname = true ->
  join "." (parts qname) = prefix qname
  /\ (forall p, prefix qname <> p ++ ".")
  /\ exists n tail,
       qname = prefix qname ++ dots n ++ tail
       /\ lower tail = lower BEACON_SUFFIX.
Proof.
  intros B. split; [apply join_split|].
  split; [apply rstrip_spec|].
  apply is_beacon_iff in B. destruct B as (p & t & -> & Ht).
  unfold prefix. rewrite (slice_of_beacon p t Ht).
  destruct (rstrip_spec p) as [[n E] _].
  exists n, t. split; [|exact Ht].
  now rewrite <- app_assoc_str, <- E.
Qed.

Lemma decode_round_trip_witness :
  join "." (parts "abc123.deadbeef..B.Backup-Monitor.gr.") = "abc123.deadbeef"
  /\ exists n tail,
       "abc123.deadbeef..B.Backup-Monitor.gr."
       = "abc123.deadbeef" ++ dots n ++ tail
       /\ lower tail = lower BEACON_SUFFIX.
Proof.
  destruct (decode_round_trip "abc123.deadbeef..B.Backup-Monitor.gr." eq_refl)
    as (H1 & _ & H2).
  split; [exact H1 | exact H2].
Defined.

End DecodeMore.

(** ** More on the API *)

Section ApiMoreFacts.
Import PyStr Api ApiMore.
Context {DT : DatetimeLib}.

Ltac go :=
  unfold query_telemetry, query_dns, since_filter, select_from, pool_fetch,
    pool_execute, try_except_in, try_except, bind, lift, ret, raise, modify,
    datetime_fromisoformat, equality_filter, no_filter, where_clause;
  cbn.

(** The filter the [if since:] block leaves when it does not refuse *)
Lemma since_filter_value (since : option string) (f : Filter) (s : Store) :
  since_invalid since = false ->
  since_filter since f s
  = (Ok (inr {| clauses :=
                  (clauses f
                   ++ (if present since
                       then [("received_at >= $" ++ str_of_nat (idx f))%string]
                       else []))%list;
                params := (params f ++ since_args since)%list;
                idx := (idx f + (if present since then 1 else 0))%nat |}),
     s)
  /\ List.length (since_args since) = (if present since then 1 else 0)%nat.
Proof.
  destruct f as [cl pa ix].
  destruct since as [[|a r]|];
    cbn [since_invalid since_filter present since_args PyStr.truthy andb
         clauses params idx];
    intros I.
  - rewrite !app_nil_r, Nat.add_0_r. now split.
  - unfold try_except_in, bind, lift, ret, datetime_fromisoformat.
    destruct (fromisoformat (replace "Z" "+00:00" (String a r)));
      [|discriminate I].
    now split.
  - rewrite !app_nil_r, Nat.add_0_r. now split.
Qed.

(** X8: the statements the query endpoints run are parameterized.  The
    text is one of eight (telemetry) or four (DNS) fixed texts, chosen by
    which filters are present and by nothing in their values; the
    arguments are the values of the filters present, in the order
    fingerprint, environment, since, followed by the clamped limit; and
    the text has as many [$] placeholders as there are arguments. *)
Theorem query_statements_are_parameterized
    (env : Env) (fingerprint environment since : option string)
    (limit : option Z) (s : Store) :
  since_invalid since = false ->
  (exists q,
     fetched (snd (query_telemetry env fingerprint environment since limit s))
     = (fetched s ++ [q])%list
     /\ sql q = telemetry_sql (present fingerprint) (present environment)
                  (present since)
     /\ args q = (str_args fingerprint ++ str_args environment
                  ++ since_args since
                  ++ [ArgInt (clamp_limit (limit_or_default limit))])%list
     /\ count_char "$" (sql q) = List.length (args q))
  /\ (exists q,
        fetched (snd (query_dns env fingerprint since limit s))
        = (fetched s ++ [q])%list
        /\ sql q = dns_sql (present fingerprint) (present since)
        /\ args q = (str_args fingerprint ++ since_args since
                     ++ [ArgInt (clamp_limit (limit_or_default limit))])%list
        /\ count_char "$" (sql q) = List.length (args q)).
Proof.
  intros I. split.
  - unfold query_telemetry, bind.
    destruct (since_filter_value since
                (equality_filter "environment" environment
                   (equality_filter "fingerprint" fingerprint no_filter))
                s I) as [-> L].
    unfold select_from, pool_fetch, bind, modify, lift, ret.
    eexists. split.
    { match goal with
      | |- context [fetch_result env ?q] => destruct (fetch_result env q)
      end; reflexivity. }
    cbn [sql args]. unfold where_clause.
    destruct fingerprint as [[|c1 r1]|], environment as [[|c2 r2]|];
      destruct (present since);
      cbn [equality_filter no_filter PyStr.truthy present str_args
           clauses params idx app Nat.add];
      (split; [reflexivity|]);
      (split; [now rewrite <- ?app_assoc|]);
      cbn [List.length]; rewrite ?length_app, ?L; reflexivity.
  - unfold query_dns, bind.
    destruct (since_filter_value since
                (equality_filter "fingerprint" fingerprint no_filter)
                s I) as [-> L].
    unfold select_from, pool_fetch, bind, modify, lift, ret.
    eexists. split.
    { match goal with
      | |- context [fetch_result env ?q] => destruct (fetch_result env q)
      end; reflexivity. }
    cbn [sql args]. unfold where_clause.
    destruct fingerprint as [[|c1 r1]|];
      destruct (present since);
      cbn [equality_filter no_filter PyStr.truthy present str_args
           clauses params idx app Nat.add];
      (split; [reflexivity|]);
      (split; [now rewrite <- ?app_assoc|]);
      cbn [List.length]; rewrite ?length_app, ?L; reflexivity.
Qed.

(** X9: on the read path a storage error is not swallowed and nothing is
    written: when [since] is not refused, either endpoint runs one
    statement, leaves [telemetry_events] as it was, and returns the
    projected rows when the fetch returns, or raises what the fetch
    raised. *)
Theorem query_outcome
    (env : Env) (fingerprint environment since : option string)
    (limit : option Z) (s : Store) :
  since_invalid since = false ->
  (exists q,
     fetched (snd (query_telemetry env fingerprint environment since limit s))
     = (fetched s ++ [q])%list
     /\ telemetry_events
          (snd (query_telemetry env fingerprint environment since limit s))
        = telemetry_events s
     /\ fst (query_telemetry env fingerprint environment since limit s)
        = match fetch_result env q with
          | Ok rows => Ok (Json (project rows))
          | Raise e => Raise e
          end)
  /\ (exists q,
        fetched (snd (query_dns env fingerprint since limit s))
        = (fetched s ++ [q])%list
        /\ telemetry_events (snd (query_dns env fingerprint since limit s))
           = telemetry_events s
        /\ fst (query_dns env fingerprint since limit s)
           = match fetch_result env q with
             | Ok rows => Ok (Json (project rows))
             | Raise e => Raise e
             end).
Proof.
  intros I. split.
  - unfold query_telemetry, bind.
    destruct (since_filter_value since
                (equality_filter "environment" environment
                   (equality_filter "fingerprint" fingerprint no_filter))
                s I) as [-> _].
    unfold select_from, pool_fetch, bind, modify, lift, ret.
    match goal with
    | |- context [fetch_result env ?q] =>
        exists q; destruct (fetch_result env q)
    end; now repeat split.
  - unfold query_dns, bind.
    destruct (since_filter_value since
                (equality_filter "fingerprint" fingerprint no_filter)
                s I) as [-> _].
    unfold select_from, pool_fetch, bind, modify, lift, ret.
    match goal with
    | |- context [fetch_result env ?q] =>
        exists q; destruct (fetch_result env q)
    end; now repeat split.
Qed.


(** *** The source address *)

Lemma lstrip_space_head (l : list ascii) (a : ascii) (r : list ascii) :
  lstrip_space l = a :: r -> is_space a = false.
Proof.
  induction l as [|x l IH]; simpl; [discriminate|].
  destruct (is_space x) eqn:E; [exact IH|]. now intros [= <- _].
Qed.

Lemma lstrip_space_incl (l : list ascii) (x : ascii) :
  In x (lstrip_space l) -> In x l.
Proof.
  induction l as [|y l IH]; simpl; [tauto|].
  destruct (is_space y); [right; now apply IH | tauto].
Qed.

Lemma lstrip_space_snoc (l : list ascii) (a : ascii) :
  is_space a = false ->
  lstrip_space (l ++ [a]) = (lstrip_space l ++ [a])%list.
Proof.
  intros H. induction l as [|x l IH]; simpl; [now rewrite H|].
  now destruct (is_space x).
Qed.

Lemma contains_In (c : ascii) (s : string) :
  contains c s = true <-> In c (list_ascii_of_string s).
Proof.
  induction s as [|a s IH]; simpl; [split; [discriminate | tauto]|].
  rewrite orb_true_iff, IH, Ascii.eqb_eq. tauto.
Qed.

(** [strip] takes white space off both ends and adds nothing *)
Lemma strip_spec (s : string) :
  (forall c, contains c s = false -> contains c (strip s) = false)
  /\ (forall a r, strip s = String a r -> is_space a = false)
  /\ (forall p a, strip s = p ++ String a "" -> is_space a = false).
Proof.
  unfold strip. set (y := lstrip_space (list_ascii_of_string s)).
  split; [|split].
  - intros c H. destruct (contains c (string_of_list_ascii _)) eqn:E;
      [|reflexivity].
    apply contains_In in E. rewrite list_ascii_of_string_of_list_ascii in E.
    apply in_rev, lstrip_space_incl, in_rev, lstrip_space_incl in E.
    apply contains_In in E. congruence.
  - intros a r H. apply (f_equal list_ascii_of_string) in H.
    rewrite list_ascii_of_string_of_list_ascii in H. simpl in H.
    destruct y as [|y0 y'] eqn:Ey; [discriminate H|].
    assert (Hy : is_space y0 = false)
      by (eapply lstrip_space_head; exact Ey).
    simpl rev in H. rewrite (lstrip_space_snoc _ _ Hy), rev_app_distr in H.
    simpl in H. now injection H as <- _.
  - intros p a H. apply (f_equal list_ascii_of_string) in H.
    rewrite list_ascii_of_string_of_list_ascii, list_ascii_app in H.
    apply (f_equal (@rev ascii)) in H.
    rewrite rev_involutive, rev_app_distr in H. simpl in H.
    eapply lstrip_space_head; exact H.
Qed.

(** X11: where the source address of a POST comes from.  A non-empty
    CF-Connecting-IP header wins; otherwise the first comma-separated
    entry of X-Forwarded-For, trimmed, when it is not empty; otherwise the
    peer host, and the request fails only when there is no peer either.
    The entry taken from X-Forwarded-For never contains a comma and
    neither begins nor ends with white space. *)
Theorem source_ip_precedence (request : Request) :
  let cf := headers_get "CF-Connecting-IP" (headers request) in
  let xff := match headers_get "X-Forwarded-For" (headers request) with
             | Some v => v
             | None => ""
             end in
  let first := strip (nth 0 (split "," xff) "") in
  (forall v, cf = Some v -> v <> "" -> source_ip_of request = Ok v)
  /\ (cf = None \/ cf = Some "" ->
      first <> "" -> source_ip_of request = Ok first)
  /\ (cf = None \/ cf = Some "" ->
      first = "" ->
      source_ip_of request
      = match client request with
        | Some (host, _) => Ok host
        | None => Raise AttributeError
        end)
  /\ contains "," first = false
  /\ (forall a r, first = String a r -> is_space a = false)
  /\ (forall p a, first = p ++ String a "" -> is_space a = false).
Proof.
  intros cf xff first.
  assert (T : forall v, v <> "" -> PyStr.truthy v = true)
    by (intros [|a r] H; [congruence | reflexivity]).
  split; [|split; [|split; [|split]]].
  - intros v E N. unfold source_ip_of. fold cf. now rewrite E, (T v N).
  - intros E N. unfold source_ip_of. fold cf xff first.
    rewrite (T first N). now destruct E as [-> | ->].
  - intros E N. unfold source_ip_of. fold cf xff first.
    rewrite N. now destruct E as [-> | ->].
  - apply strip_spec.
    pose proof (split_parts_no_sep "," xff) as F.
    pose proof (split_not_nil "," xff) as Hn.
    destruct (split "," xff) as [|h t]; [congruence|].
    now inversion F.
  - apply strip_spec.
Qed.

(** X12: [health] never raises and never touches the store: it answers
    [{"status": "healthy"}] when the probe returns, and the 503 response
    carrying the text of the error when the probe raises, whatever the
    class of the error. *)
Theorem health_reports_probe
    (probe : result dbval) (str_of : exn -> string) (s : Store) :
  exists response,
    health probe str_of s = (Ok response, s)
    /\ (response = Json (JObject [("status", JString "healthy")])
        <-> exists v, probe = Ok v)
    /\ (forall e, probe = Raise e ->
          response
          = JSONResponse (JObject [("status", JString "unhealthy");
                                   ("error", JString (str_of e))]) 503).
Proof.
  destruct probe as [v|e]; eexists; (split; [reflexivity|]); split.
  - split; [now exists v | reflexivity].
  - discriminate.
  - split; [discriminate | now intros [v H]].
  - now intros e' [= <-].
Qed.

End ApiMoreFacts.

(** ** More on the API, run on sample requests *)

Section ApiMoreRuns.
Import PyStr Api ApiMore Samples MoreSamples.

Lemma query_statements_are_parameterized_witness :
  exists q : @Query Iso8601.lib,
    fetched (snd (query_telemetry pool_up (Some hostile) None
                    (Some "2024-01-01T00:00:00Z") (Some 5000) empty_store))
    = [q]
    /\ sql q = "SELECT * FROM telemetry_events WHERE fingerprint = $1 AND received_at >= $2 ORDER BY received_at DESC LIMIT $3"
    /\ args q = [@ArgStr Iso8601.lib hostile;
                  @ArgDatetime Iso8601.lib midnight_utc;
                  @ArgInt Iso8601.lib 1000].
Proof.
  destruct (proj1 (@query_statements_are_parameterized Iso8601.lib pool_up
                     (Some hostile) None (Some "2024-01-01T00:00:00Z")
                     (Some 5000) empty_store eq_refl))
    as (q & Hf & Hs & Ha & _).
  exists q. split; [exact Hf|]. split; [exact Hs | exact Ha].
Defined.

Lemma query_outcome_witness :
  exists q : @Query Iso8601.lib,
    fetched (snd (query_dns pool_down (Some "abc123") None None empty_store))
    = [q]
    /\ telemetry_events
         (snd (query_dns pool_down (Some "abc123") None None empty_store))
       = []
    /\ fst (query_dns pool_down (Some "abc123") None None empty_store)
       = Raise PostgresError.
Proof.
  destruct (proj2 (@query_outcome Iso8601.lib pool_down
                     (Some "abc123") None None None empty_store eq_refl))
    as (q & Hf & Ht & Hr).
  exists q. split; [exact Hf|]. split; [exact Ht | exact Hr].
Defined.

End ApiMoreRuns.
